(** * A pin-level model of the simulated SPI flash chip

    Shallow embedding of [flash.hpp], [flash.ipp], [flash.cpp],
    [flash_sim.hpp] and [flash_sim.cpp] (namespace [bedrock]).

    Bytes and machine integers are [Z] with their wrap-around written out,
    [std::vector] is [list], the operation objects are records gathered in
    a sum type, and every member function is a function from the object
    state to the new object state paired with the way the call ended. *)

From Stdlib Require Import ZArith List String Ascii Bool Lia.
Import ListNotations.
Local Open Scope Z_scope.

(** ** How a C++ call ends *)

(** The exceptions the sources throw, with their [what()] text.  For the
    exceptions thrown by the standard library the text names the call. *)
Inductive exception : Type :=
| runtime_error (what : string)
| logic_error (what : string)
| out_of_range (what : string)
| invalid_argument (what : string).

(** A call returns a value, leaves by an exception, or runs into behaviour
    the language leaves undefined. The state reached so far is kept beside
    the outcome: C++ does not roll a member function back when it throws. *)
Inductive outcome (A : Type) : Type :=
| returns (a : A)
| throws (e : exception)
| undefined (why : string).
Arguments returns {A} a.
Arguments throws {A} e.
Arguments undefined {A} why.

Definition method (S A : Type) : Type := S -> S * outcome A.

Definition ret {S A : Type} (a : A) : method S A := fun s => (s, returns a).

Definition bind {S A B : Type} (m : method S A) (k : A -> method S B) : method S B :=
  fun s =>
    match m s with
    | (s', returns a) => k a s'
    | (s', throws e) => (s', throws e)
    | (s', undefined why) => (s', undefined why)
    end.

Declare Scope method_scope.
Delimit Scope method_scope with method.
Notation "x <- m ;; k" := (bind m (fun x => k))
  (at level 61, m at next level, right associativity) : method_scope.
Notation "m ;; k" := (bind m (fun _ => k))
  (at level 61, right associativity) : method_scope.

(** ** Vectors and bytes *)

(** [v.back()]; [None] stands for the call on an empty vector. *)
Fixpoint back {A : Type} (v : list A) : option A :=
  match v with
  | [] => None
  | [x] => Some x
  | _ :: v' => back v'
  end.

(** [v[i] = x] for an index inside the vector. *)
Fixpoint assign {A : Type} (v : list A) (i : nat) (x : A) : list A :=
  match v, i with
  | [], _ => []
  | _ :: v', O => x :: v'
  | y :: v', S i' => y :: assign v' i' x
  end.

(** [std::copy(begin(src), end(src), begin(dst) + pos)]; [None] when the
    destination range leaves [dst]. *)
Definition copy {A : Type} (src dst : list A) (pos : nat) : option (list A) :=
  if (pos + List.length src <=? List.length dst)%nat
  then Some (firstn pos dst ++ src ++ skipn (pos + List.length src) dst)
  else None.

(** [std::byte operator<<(std::byte b, IntegerType shift)]: the byte is
    widened to a 32-bit integer, shifted and narrowed to a byte again; a
    shift count of 32 or more is undefined, and [None] here. *)
Definition byte_shl (b shift : Z) : option Z :=
  if 32 <=? shift then None else Some (Z.shiftl b shift mod 256).

(** [x << shift] on a [std::uint32_t]; [None] for a shift count of 32 or
    more. *)
Definition uint32_shl (x shift : Z) : option Z :=
  if 32 <=? shift then None else Some (Z.shiftl x shift mod 2 ^ 32).

(** ** class flash *)

Module flash.

Module user_operation.
Inductive t : Type :=
| toggle_chip_enable
| toggle_serial_input
| toggle_clock
| wait_for_write_complete.

Definition eqb (a b : t) : bool :=
  match a, b with
  | toggle_chip_enable, toggle_chip_enable
  | toggle_serial_input, toggle_serial_input
  | toggle_clock, toggle_clock
  | wait_for_write_complete, wait_for_write_complete => true
  | _, _ => false
  end.
End user_operation.

Module pin_state.
Inductive t : Type := high | low.

Definition eqb (a b : t) : bool :=
  match a, b with
  | high, high | low, low => true
  | _, _ => false
  end.
End pin_state.

(** The pure virtual members. *)
Class interface (T : Type) : Type := {
  get_chip_enable : T -> pin_state.t;
  get_serial_input : T -> pin_state.t;
  get_serial_output : T -> pin_state.t;
  toggle_chip_enable : method T unit;
  toggle_serial_input : method T unit;
  toggle_clock : method T unit;
  wait_for_write_complete : method T unit
}.

(** flash.cpp:17; the [default] label of the switch is for a value that
    is none of the four enumerators, which [user_operation.t] does not
    have. *)
Definition user_operation_to_char (op : user_operation.t) : outcome ascii :=
  match op with
  | user_operation.toggle_chip_enable => returns "e"%char
  | user_operation.toggle_serial_input => returns "i"%char
  | user_operation.toggle_clock => returns "c"%char
  | user_operation.wait_for_write_complete => returns "w"%char
  end.

(** flash.cpp:29 *)
Definition char_to_user_operation (c : ascii) : outcome user_operation.t :=
  if Ascii.eqb c "e" then returns user_operation.toggle_chip_enable
  else if Ascii.eqb c "i" then returns user_operation.toggle_serial_input
  else if Ascii.eqb c "c" then returns user_operation.toggle_clock
  else if Ascii.eqb c "w" then returns user_operation.wait_for_write_complete
  else throws (invalid_argument "Cannot convert char to user_operation.").

Section members.
Context {T : Type} {chip : interface T}.

(** flash.cpp:6 *)
Definition perform_user_operation (op : user_operation.t) : method T unit :=
  match op with
  | user_operation.toggle_chip_enable => toggle_chip_enable
  | user_operation.toggle_serial_input => toggle_serial_input
  | user_operation.toggle_clock => toggle_clock
  | user_operation.wait_for_write_complete => wait_for_write_complete
  end.

(** flash.ipp:8; the argument [bit] is the loop variable, which starts
    at [num_bits]. The mask [1 << (bit - 1)] of the source is an [int]:
    the test [data & (1 << (bit - 1))] is that of bit [bit - 1] of [data]
    for a [num_bits] of at most 31, the widths this model is for (the
    callers clock in 8, 12 and 24 bits). *)
Fixpoint clock_in_data (bit : nat) (data : Z) : method T unit :=
  match bit with
  | O => ret tt
  | S bit' =>
      fun f =>
        let bit_set := Z.testbit data (Z.of_nat bit') in
        let current_state := get_serial_input f in
        ((if (bit_set && pin_state.eqb current_state pin_state.low)
             || (negb bit_set && pin_state.eqb current_state pin_state.high)
          then toggle_serial_input
          else ret tt) ;;
         toggle_clock ;;
         clock_in_data bit' data)%method f
  end.

(** flash.ipp:22; [value] is the local accumulator. *)
Fixpoint clock_out_data_from (bit : nat) (value : Z) : method T Z :=
  match bit with
  | O => ret value
  | S bit' =>
      fun f =>
        let value' :=
          if pin_state.eqb (get_serial_output f) pin_state.high
          then Z.lor value (Z.shiftl 1 (Z.of_nat bit'))
          else value in
        (toggle_clock ;; clock_out_data_from bit' value')%method f
  end.

Definition clock_out_data (num_bits : nat) : method T Z :=
  clock_out_data_from num_bits 0.
End members.

End flash.

(** ** class flash_sim *)

Module flash_sim.
Import flash.

Module chip_state.
Inductive t : Type := deselected | command | operation.
End chip_state.

(** *** The operation objects *)

Module operation_with_address.
Record t : Type := mk {
  _address : Z;     (* std::uint32_t *)
  _bit_index : Z    (* std::uint8_t *)
}.
End operation_with_address.

Module read_operation.
Record t : Type := mk {
  base : operation_with_address.t
}.
Definition set_base (b : operation_with_address.t) (this : t) : t := mk b.
End read_operation.

Module write_operation.
Record t : Type := mk {
  base : operation_with_address.t;
  _write_buffer : list Z;   (* std::vector<std::byte> *)
  _current_byte : nat;      (* iterator, as its distance from begin() *)
  _bit_index : Z            (* std::uint8_t *)
}.
Definition set_base (b : operation_with_address.t) (this : t) : t :=
  mk b (_write_buffer this) (_current_byte this) (_bit_index this).
End write_operation.

(** What a [std::unique_ptr<operation>] can own: an object of one of the
    four concrete classes. *)
Inductive operation : Type :=
| read_operation (this : read_operation.t)
| write_operation (this : write_operation.t)
| write_enable_operation
| chip_erase_operation.

(** *** The chip *)

Record t : Type := mk {
  _chip_enable : pin_state.t;
  _serial_input : pin_state.t;
  _serial_output : pin_state.t;
  _chip_state : chip_state.t;
  _write_enabled : bool;
  _bit_index : Z;                              (* std::uint8_t *)
  _instruction_register : Z;                   (* std::byte *)
  _operation : option operation;               (* nullptr is None *)
  _data : list Z;                              (* std::vector<std::byte> *)
  _user_operations : list user_operation.t
}.

Definition set_serial_input (v : pin_state.t) (f : t) : t :=
  mk (_chip_enable f) v (_serial_output f) (_chip_state f) (_write_enabled f)
     (_bit_index f) (_instruction_register f) (_operation f) (_data f)
     (_user_operations f).

Definition set_chip_state (v : chip_state.t) (f : t) : t :=
  mk (_chip_enable f) (_serial_input f) (_serial_output f) v (_write_enabled f)
     (_bit_index f) (_instruction_register f) (_operation f) (_data f)
     (_user_operations f).

Definition set_write_enabled (v : bool) (f : t) : t :=
  mk (_chip_enable f) (_serial_input f) (_serial_output f) (_chip_state f) v
     (_bit_index f) (_instruction_register f) (_operation f) (_data f)
     (_user_operations f).

Definition set_bit_index (v : Z) (f : t) : t :=
  mk (_chip_enable f) (_serial_input f) (_serial_output f) (_chip_state f)
     (_write_enabled f) v (_instruction_register f) (_operation f) (_data f)
     (_user_operations f).

Definition set_instruction_register (v : Z) (f : t) : t :=
  mk (_chip_enable f) (_serial_input f) (_serial_output f) (_chip_state f)
     (_write_enabled f) (_bit_index f) v (_operation f) (_data f)
     (_user_operations f).

Definition set_operation (v : option operation) (f : t) : t :=
  mk (_chip_enable f) (_serial_input f) (_serial_output f) (_chip_state f)
     (_write_enabled f) (_bit_index f) (_instruction_register f) v (_data f)
     (_user_operations f).

Definition set_data (v : list Z) (f : t) : t :=
  mk (_chip_enable f) (_serial_input f) (_serial_output f) (_chip_state f)
     (_write_enabled f) (_bit_index f) (_instruction_register f) (_operation f) v
     (_user_operations f).

(** [_user_operations.push_back(op)] *)
Definition push_back (op : user_operation.t) (f : t) : t :=
  mk (_chip_enable f) (_serial_input f) (_serial_output f) (_chip_state f)
     (_write_enabled f) (_bit_index f) (_instruction_register f) (_operation f)
     (_data f) (_user_operations f ++ [op]).

(** [_flash._serial_input == pin_state::high ? 1 : 0] *)
Definition serial_input_bit (f : t) : Z :=
  match _serial_input f with
  | pin_state.high => 1
  | pin_state.low => 0
  end.

(** flash_sim.cpp:17 *)
Definition ctor (num_bytes : nat) : t :=
  mk pin_state.high pin_state.low pin_state.low chip_state.deselected false
     0 0 None (repeat 0 num_bytes) [].

Definition get_chip_state (f : t) : chip_state.t := _chip_state f.
Definition get_chip_enable (f : t) : pin_state.t := _chip_enable f.
Definition get_serial_input (f : t) : pin_state.t := _serial_input f.
Definition get_serial_output (f : t) : pin_state.t := _serial_output f.
Definition get_data (f : t) : list Z := _data f.
Definition get_user_operations (f : t) : list user_operation.t := _user_operations f.

Section methods.

(** The constructor of [operation_with_address] gives [_address] no
    initial value, and [toggle_clock] then ORs the address bits into it
    (flash_sim.cpp:164): a read of an indeterminate value, which C++
    gives no meaning. The model goes on with the value the member
    happens to hold: [indeterminate] is that value for the object under
    construction. Every object has its own, so after the section it is
    an argument of each call that may construct one, and two calls, or
    two chips, need not be given the same. *)
Variable indeterminate : Z.

(** *** flash_sim::operation_with_address *)

(** flash_sim.cpp:148 *)
Definition operation_with_address_ctor : operation_with_address.t :=
  operation_with_address.mk (indeterminate mod 2 ^ 32) 12.

(** flash_sim.cpp:154 *)
Definition operation_with_address_toggle_chip_enable {D : Type}
    (base : D -> operation_with_address.t)
    (toggle_chip_enable_impl : method (D * t) unit) : method (D * t) unit :=
  fun '(this, f) =>
    if negb (operation_with_address._bit_index (base this) =? 0)
    then ((this, f),
          throws (runtime_error "Cannot toggle chip enable while command is reading address."))
    else toggle_chip_enable_impl (this, f).

(** flash_sim.cpp:161 *)
Definition operation_with_address_toggle_clock {D : Type}
    (base : D -> operation_with_address.t)
    (set_base : operation_with_address.t -> D -> D)
    (toggle_clock_impl : method (D * t) unit) : method (D * t) unit :=
  fun '(this, f) =>
    let b := base this in
    if negb (operation_with_address._bit_index b =? 0)
    then
      let i := (operation_with_address._bit_index b - 1) mod 256 in
      match uint32_shl (serial_input_bit f) i with
      | None =>
          ((set_base (operation_with_address.mk (operation_with_address._address b) i) this,
            f),
           undefined "shift count")
      | Some bit =>
          let a := Z.lor (operation_with_address._address b) bit in
          ((set_base (operation_with_address.mk a i) this, f), returns tt)
      end
    else toggle_clock_impl (this, f).

(** flash_sim.cpp:169 *)
Definition operation_with_address_address (b : operation_with_address.t) : outcome Z :=
  if negb (operation_with_address._bit_index b =? 0)
  then throws (runtime_error "Requested address, but address is not ready yet.")
  else returns (operation_with_address._address b).

(** *** flash_sim::read_operation *)

(** flash_sim.cpp:180 *)
Definition read_operation_ctor : method t operation :=
  fun f => (f, returns (read_operation (read_operation.mk operation_with_address_ctor))).

(** flash_sim.cpp:185 *)
Definition read_operation_toggle_chip_enable_impl : method (read_operation.t * t) unit :=
  ret tt.

(** flash_sim.cpp:187 *)
Definition read_operation_toggle_clock_impl : method (read_operation.t * t) unit :=
  ret tt.

(** *** flash_sim::write_operation *)

(** flash_sim.cpp:193 *)
Definition write_operation_ctor : method t operation :=
  fun f =>
    let this := write_operation.mk operation_with_address_ctor (repeat 0 256) 0%nat 8 in
    if negb (_write_enabled f)
    then (f, throws (runtime_error "Cannot chip erase without write enabled."))
    else (f, returns (write_operation this)).

(** flash_sim.cpp:203 *)
Definition write_operation_toggle_chip_enable_impl : method (write_operation.t * t) unit :=
  fun '(this, f) =>
    let buffer := write_operation._write_buffer this in
    match copy buffer (_data f) (List.length buffer) with
    | None => ((this, f), undefined "std::copy past the end of _data")
    | Some data => ((this, set_write_enabled false (set_data data f)), returns tt)
    end.

(** The guard of flash_sim.cpp:216; the right operand of [&&] is only
    evaluated for the first bit of a byte. *)
Definition write_operation_erased_check (this : write_operation.t) (f : t) : outcome unit :=
  let byte_index := Z.of_nat (write_operation._current_byte this) in
  if write_operation._bit_index this =? 8
  then
    match operation_with_address_address (write_operation.base this) with
    | returns address =>
        match nth_error (_data f) (Z.to_nat (address + byte_index)) with
        | None => throws (out_of_range "_data.at")
        | Some b =>
            if negb (b =? 0xff)
            then throws (runtime_error "Writing a non-erased byte.")
            else returns tt
        end
    | throws e => throws e
    | undefined why => undefined why
    end
  else returns tt.

(** flash_sim.cpp:209 *)
Definition write_operation_toggle_clock_impl : method (write_operation.t * t) unit :=
  fun '(this, f) =>
    let buffer := write_operation._write_buffer this in
    let current := write_operation._current_byte this in
    if (current =? List.length buffer)%nat
    then ((this, f), throws (runtime_error "Write buffer is full."))
    else
      match write_operation_erased_check this f with
      | returns _ =>
          let i := (write_operation._bit_index this - 1) mod 256 in
          match byte_shl (serial_input_bit f) i with
          | None =>
              ((write_operation.mk (write_operation.base this) buffer current i, f),
               undefined "shift count")
          | Some bit =>
              let buffer' := assign buffer current (Z.lor (nth current buffer 0) bit) in
              if i =? 0
              then ((write_operation.mk (write_operation.base this) buffer' (S current) 8, f),
                    returns tt)
              else ((write_operation.mk (write_operation.base this) buffer' current i, f),
                    returns tt)
          end
      | throws e => ((this, f), throws e)
      | undefined why => ((this, f), undefined why)
      end.

(** *** flash_sim::write_enable_operation *)

(** flash_sim.cpp:231 *)
Definition write_enable_operation_ctor : method t operation :=
  fun f => (f, returns write_enable_operation).

(** flash_sim.cpp:236 *)
Definition write_enable_operation_toggle_chip_enable : method t unit :=
  fun f =>
    if _write_enabled f
    then (f, throws (runtime_error "Cannot write enable when already write enabled."))
    else (set_write_enabled true f, returns tt).

(** flash_sim.cpp:243 *)
Definition write_enable_operation_toggle_clock : method t unit :=
  fun f => (f, throws (runtime_error "Write enable does not require clock toggling.")).

(** *** flash_sim::chip_erase_operation *)

(** flash_sim.cpp:252 *)
Definition chip_erase_operation_ctor : method t operation :=
  fun f =>
    if negb (_write_enabled f)
    then (f, throws (runtime_error "Cannot chip erase without write enabled."))
    else (f, returns chip_erase_operation).

(** flash_sim.cpp:259 *)
Definition chip_erase_operation_toggle_chip_enable : method t unit :=
  fun f => (set_write_enabled false (set_data (map (fun _ => 0xff) (_data f)) f), returns tt).

(** flash_sim.cpp:266 *)
Definition chip_erase_operation_toggle_clock : method t unit :=
  fun f => (f, throws (runtime_error "Chip erase does not require clock toggling.")).

(** *** Calls through [_operation] *)

(** [_operation->toggle_chip_enable()] on the object [op]: the
    override of its class runs, on the object and on [_flash]. *)
Definition operation_toggle_chip_enable : method (operation * t) unit :=
  fun '(op, f) =>
    match op with
    | read_operation this =>
        let '((this', f'), r) :=
          operation_with_address_toggle_chip_enable
            read_operation.base read_operation_toggle_chip_enable_impl (this, f) in
        ((read_operation this', f'), r)
    | write_operation this =>
        let '((this', f'), r) :=
          operation_with_address_toggle_chip_enable
            write_operation.base write_operation_toggle_chip_enable_impl (this, f) in
        ((write_operation this', f'), r)
    | write_enable_operation =>
        let '(f', r) := write_enable_operation_toggle_chip_enable f in ((op, f'), r)
    | chip_erase_operation =>
        let '(f', r) := chip_erase_operation_toggle_chip_enable f in ((op, f'), r)
    end.

(** [_operation->toggle_clock()] on the object [op]. *)
Definition operation_toggle_clock : method (operation * t) unit :=
  fun '(op, f) =>
    match op with
    | read_operation this =>
        let '((this', f'), r) :=
          operation_with_address_toggle_clock
            read_operation.base read_operation.set_base
            read_operation_toggle_clock_impl (this, f) in
        ((read_operation this', f'), r)
    | write_operation this =>
        let '((this', f'), r) :=
          operation_with_address_toggle_clock
            write_operation.base write_operation.set_base
            write_operation_toggle_clock_impl (this, f) in
        ((write_operation this', f'), r)
    | write_enable_operation =>
        let '(f', r) := write_enable_operation_toggle_clock f in ((op, f'), r)
    | chip_erase_operation =>
        let '(f', r) := chip_erase_operation_toggle_clock f in ((op, f'), r)
    end.

(** *** flash_sim *)

(** flash_sim.cpp:10; [None] is the key [_operation_map.at] does not
    find. *)
Definition _operation_map (opcode : Z) : option (method t operation) :=
  if opcode =? 0x02 then Some write_operation_ctor
  else if opcode =? 0x03 then Some read_operation_ctor
  else if opcode =? 0x06 then Some write_enable_operation_ctor
  else if opcode =? 0x60 then Some chip_erase_operation_ctor
  else None.

(** flash_sim.cpp:60 *)
Definition toggle_chip_enable : method t unit :=
  fun f =>
    match _chip_state f with
    | chip_state.deselected =>
        let f := push_back user_operation.toggle_chip_enable f in
        let f := set_chip_state chip_state.command f in
        (set_bit_index 8 f, returns tt)
    | chip_state.command =>
        (f, throws (runtime_error "Cannot toggle chip enable while chip is in command state."))
    | chip_state.operation =>
        match _operation f with
        | None => (f, throws (logic_error "In operation state without an operation."))
        | Some op =>
            let f := push_back user_operation.toggle_chip_enable f in
            let '((op', f), r) := operation_toggle_chip_enable (op, f) in
            let f := set_operation (Some op') f in
            match r with
            | returns _ =>
                let f := set_operation None f in
                let f := set_instruction_register 0 f in
                (set_chip_state chip_state.deselected f, returns tt)
            | throws e => (f, throws e)
            | undefined why => (f, undefined why)
            end
        end
    end.

(** flash_sim.cpp:85 *)
Definition toggle_serial_input : method t unit :=
  fun f =>
    match _chip_state f with
    | chip_state.deselected =>
        (f, throws (runtime_error "Cannot toggle serial input while chip is deselected."))
    | chip_state.command
    | chip_state.operation =>
        match back (_user_operations f) with
        | None => (f, undefined "back() of an empty vector")
        | Some last =>
            if user_operation.eqb last user_operation.toggle_serial_input
            then (f, throws (runtime_error "Cannot toggle serial input twice in a row."))
            else
              let f := push_back user_operation.toggle_serial_input f in
              (set_serial_input
                 (if pin_state.eqb (_serial_input f) pin_state.high
                  then pin_state.low else pin_state.high) f,
               returns tt)
        end
    end.

(** flash_sim.cpp:104 *)
Definition toggle_clock : method t unit :=
  fun f =>
    match _chip_state f with
    | chip_state.deselected =>
        (f, throws (runtime_error "Cannot toggle serial input while chip is deselected."))
    | chip_state.command =>
        let f := push_back user_operation.toggle_clock f in
        let f := set_bit_index ((_bit_index f - 1) mod 256) f in
        match byte_shl (serial_input_bit f) (_bit_index f) with
        | None => (f, undefined "shift count")
        | Some bit =>
            let f := set_instruction_register (Z.lor (_instruction_register f) bit) f in
            if _bit_index f =? 0
            then
              match _operation_map (_instruction_register f) with
              | None => (f, throws (out_of_range "_operation_map.at"))
              | Some make =>
                  match make f with
                  | (f, returns op) =>
                      let f := set_operation (Some op) f in
                      (set_chip_state chip_state.operation f, returns tt)
                  | (f, throws e) => (f, throws e)
                  | (f, undefined why) => (f, undefined why)
                  end
              end
            else (f, returns tt)
        end
    | chip_state.operation =>
        match _operation f with
        | None => (f, throws (logic_error "In operation state without an operation."))
        | Some op =>
            let f := push_back user_operation.toggle_clock f in
            let '((op', f), r) := operation_toggle_clock (op, f) in
            (set_operation (Some op') f, r)
        end
    end.

(** flash_sim.cpp:131 *)
Definition wait_for_write_complete : method t unit :=
  fun f => (f, returns tt).

(** [class flash_sim : public flash] *)
#[local] Instance is_flash : flash.interface t := {|
  flash.get_chip_enable := get_chip_enable;
  flash.get_serial_input := get_serial_input;
  flash.get_serial_output := get_serial_output;
  flash.toggle_chip_enable := toggle_chip_enable;
  flash.toggle_serial_input := toggle_serial_input;
  flash.toggle_clock := toggle_clock;
  flash.wait_for_write_complete := wait_for_write_complete
|}.

(** The members inherited from [flash], on a [flash_sim]. *)
Definition perform_user_operation : user_operation.t -> method t unit :=
  flash.perform_user_operation.
Definition clock_in_data : nat -> Z -> method t unit :=
  flash.clock_in_data.
Definition clock_out_data : nat -> method t Z :=
  flash.clock_out_data.

End methods.
End flash_sim.

(** ** A caller of the chip *)

(** A caller that performs a series of user operations one after the
    other with [perform_user_operation], as a replay of the operation log
    does; the first call that does not return ends the series. [g] is the
    value the uninitialised [_address] holds in the operation objects
    this series constructs, taken to be the same for each of them; a
    second series, or a second chip, has its own. *)
Fixpoint perform_user_operations (g : Z) (ops : list flash.user_operation.t)
  : method flash_sim.t unit :=
  match ops with
  | [] => ret tt
  | op :: ops' =>
      (flash_sim.perform_user_operation g op ;; perform_user_operations g ops')%method
  end.

(** ** The failures of the specification, as the exceptions of the code *)

Module failure.
(** [_operation_map.at] does not find the instruction register. *)
Definition UnknownOpcode : exception :=
  out_of_range "_operation_map.at".

(** Both [write_operation] and [chip_erase_operation] throw this one
    from their constructor. *)
Definition WriteEnableRequired : exception :=
  runtime_error "Cannot chip erase without write enabled.".

Definition NonErasedByteWrite : exception :=
  runtime_error "Writing a non-erased byte.".

(** The [InvalidTransition] of a chip-enable toggle in the command
    state. *)
Definition InvalidTransition_chip_enable_in_command : exception :=
  runtime_error "Cannot toggle chip enable while chip is in command state.".

Definition operation_missing : exception :=
  logic_error "In operation state without an operation.".
End failure.

(** ** The scenarios of the specification

    Written as a caller of the chip writes them (flash_sim_tests.cpp has
    the first two); [g] is the value the uninitialised [_address] holds
    in the operation objects the calls construct. *)

Module scenario.
Import flash flash_sim.
Local Open Scope method_scope.

(** Scenario A: write-enable. *)
Definition A (g : Z) : method flash_sim.t unit :=
  toggle_chip_enable ;; clock_in_data g 8 0x06 ;; toggle_chip_enable.

(** Scenario B: chip erase. *)
Definition B (g : Z) : method flash_sim.t unit :=
  toggle_chip_enable ;; clock_in_data g 8 0x60 ;; toggle_chip_enable.

(** Scenario C: write-enable, then a page write of [data] (one byte) at
    [address], the address clocked in as [address_bits] bits. *)
Definition C (g : Z) (address_bits : nat) (address data : Z) : method flash_sim.t unit :=
  A g ;;
  toggle_chip_enable ;;
  clock_in_data g 8 0x02 ;;
  clock_in_data g address_bits address ;;
  clock_in_data g 8 data ;;
  toggle_chip_enable.

(** Scenario D: a read at [address]; the first byte clocked out is the
    result. *)
Definition D (g : Z) (address_bits : nat) (address : Z) : method flash_sim.t Z :=
  toggle_chip_enable ;;
  clock_in_data g 8 0x03 ;;
  clock_in_data g address_bits address ;;
  clock_out_data g 8.

(** Scenario E: an opcode byte is clocked in after a chip-enable
    toggle. *)
Definition E (g : Z) (opcode : Z) : method flash_sim.t unit :=
  toggle_chip_enable ;; clock_in_data g 8 opcode.
End scenario.

(** ** What the claims speak of *)

Import flash flash_sim.

(** The chip state of the claims: everything the chip owns but the
    operation log. *)
Definition same_chip_state (f f' : flash_sim.t) : Prop :=
  _chip_state f' = _chip_state f /\
  _chip_enable f' = _chip_enable f /\
  _serial_input f' = _serial_input f /\
  _serial_output f' = _serial_output f /\
  _bit_index f' = _bit_index f /\
  _instruction_register f' = _instruction_register f /\
  _write_enabled f' = _write_enabled f /\
  _data f' = _data f /\
  _operation f' = _operation f.

(** The states a chip of [n] bytes gets into by calls of the four user
    operations, whether they return or throw. A call that runs into
    undefined behaviour has no state after it. *)
Inductive reachable (g : Z) (n : nat) : flash_sim.t -> Prop :=
| reachable_ctor : reachable g n (ctor n)
| reachable_call (f f' : flash_sim.t) (op : user_operation.t) (r : outcome unit) :
    reachable g n f ->
    perform_user_operation g op f = (f', r) ->
    (forall why, r <> undefined why) ->
    reachable g n f'.

(** The two facts flash_sim.cpp relies on without a check that could
    fail. *)
Definition operation_present (f : flash_sim.t) : Prop :=
  _chip_state f = chip_state.operation -> _operation f <> None.

Definition log_started (f : flash_sim.t) : Prop :=
  _chip_state f = chip_state.command \/ _chip_state f = chip_state.operation ->
  _user_operations f <> [].

(** A user operation that is logged when its call returns. *)
Definition logged (op : user_operation.t) : bool :=
  negb (user_operation.eqb op user_operation.wait_for_write_complete).

(** The chip after the clock toggle that shifts in bit 0 of the
    instruction register, before the opcode is looked up. *)
Definition opcode_clocked_in (f : flash_sim.t) : flash_sim.t :=
  set_instruction_register
    (Z.lor (_instruction_register f) (serial_input_bit f))
    (set_bit_index 0 (push_back user_operation.toggle_clock f)).

(** The user operations of Scenario A, a wait and the opcode and address
    of a read. *)
Definition C7_series : list user_operation.t :=
  [user_operation.toggle_chip_enable;
   user_operation.toggle_clock; user_operation.toggle_clock;
   user_operation.toggle_clock; user_operation.toggle_clock;
   user_operation.toggle_clock;
   user_operation.toggle_serial_input; user_operation.toggle_clock;
   user_operation.toggle_clock;
   user_operation.toggle_serial_input; user_operation.toggle_clock;
   user_operation.toggle_chip_enable;
   user_operation.wait_for_write_complete;
   user_operation.toggle_chip_enable]
  ++ repeat user_operation.toggle_clock 6
  ++ [user_operation.toggle_serial_input; user_operation.toggle_clock;
      user_operation.toggle_clock]
  ++ repeat user_operation.toggle_clock 12.

(** The user operations of a write-enable, a chip erase and a page write
    of the byte 0xAB at address 0 (Scenarios A, B and C, the address
    clocked in as 12 bits). *)
Definition C7_page_write_series : list user_operation.t := Eval vm_compute in
  get_user_operations
    (fst ((scenario.A 0 ;; scenario.B 0 ;; scenario.C 0 12 0x000 0xab)%method (ctor 512))).

(** ** What the further properties speak of *)

(** The pin level [clock_in_data] sets the serial-input pin to for a
    bit. *)
Definition pin_of_bit (b : bool) : pin_state.t :=
  if b then pin_state.high else pin_state.low.

(** The states that follow [f0] by calls of the four user operations,
    whether they return or throw; as for [reachable], a call that runs
    into undefined behaviour has no state after it. *)
Inductive follows (g : Z) (f0 : flash_sim.t) : flash_sim.t -> Prop :=
| follows_start : follows g f0 f0
| follows_call (f f' : flash_sim.t) (op : user_operation.t) (r : outcome unit) :
    follows g f0 f ->
    perform_user_operation g op f = (f', r) ->
    (forall why, r <> undefined why) ->
    follows g f0 f'.

(** The ranges the members of an operation object stay in. *)
Definition operation_well_formed (op : operation) : Prop :=
  match op with
  | read_operation this =>
      0 <= operation_with_address._bit_index (read_operation.base this) <= 12
  | write_operation this =>
      0 <= operation_with_address._bit_index (write_operation.base this) <= 12 /\
      List.length (write_operation._write_buffer this) = 256%nat /\
      (write_operation._current_byte this <= 256)%nat /\
      1 <= write_operation._bit_index this <= 8
  | write_enable_operation => True
  | chip_erase_operation => True
  end.

(** The shape of a chip of [n] bytes: what the chip state says about the
    other members. *)
Definition well_formed (n : nat) (f : flash_sim.t) : Prop :=
  List.length (_data f) = n /\
  _chip_enable f = pin_state.high /\
  _serial_output f = pin_state.low /\
  match _chip_state f with
  | chip_state.deselected => _instruction_register f = 0 /\ _operation f = None
  | chip_state.command => _operation f = None /\ 0 <= _bit_index f <= 8
  | chip_state.operation =>
      exists op : operation, _operation f = Some op /\ operation_well_formed op
  end.

(** The operations derived from [operation_with_address], and such an
    operation with another base-class part. *)
Definition has_address (op : operation) : Prop :=
  match op with
  | read_operation _ | write_operation _ => True
  | write_enable_operation | chip_erase_operation => False
  end.

Definition with_address (op : operation) (b : operation_with_address.t) : operation :=
  match op with
  | read_operation this => read_operation (read_operation.set_base b this)
  | write_operation this => write_operation (write_operation.set_base b this)
  | write_enable_operation => write_enable_operation
  | chip_erase_operation => chip_erase_operation
  end.

(** The chip while [clock_in_data] shifts a value in: [acc] is what the
    chip has taken of it, [k] the number of clock toggles to come. The
    members no clock toggle of that phase touches are those of [f0], the
    chip at the start. First the seven high bits of an opcode, which the
    instruction register takes; its last bit is looked up at once. *)
Definition opcode_sink (f0 : flash_sim.t) (acc : Z) (k : nat) (f : flash_sim.t) : Prop :=
  _chip_state f = chip_state.command /\
  _bit_index f = Z.of_nat k + 1 /\
  (k <= 7)%nat /\
  0 <= acc /\
  _instruction_register f =
    Z.lor (_instruction_register f0) (acc * 2 ^ (Z.of_nat k + 1)) /\
  _chip_enable f = _chip_enable f0 /\
  _serial_output f = _serial_output f0 /\
  _write_enabled f = _write_enabled f0 /\
  _operation f = _operation f0 /\
  _data f = _data f0.

(** The twelve bits of an address, which the base-class part of [op0]
    takes; [start] is what [_address] held before. *)
Definition address_sink (f0 : flash_sim.t) (op0 : operation) (start : Z)
    (acc : Z) (k : nat) (f : flash_sim.t) : Prop :=
  _chip_state f = chip_state.operation /\
  (k <= 12)%nat /\
  0 <= acc /\
  has_address op0 /\
  _operation f =
    Some (with_address op0
            (operation_with_address.mk (Z.lor start (acc * 2 ^ Z.of_nat k)) (Z.of_nat k))) /\
  _chip_enable f = _chip_enable f0 /\
  _serial_output f = _serial_output f0 /\
  _write_enabled f = _write_enabled f0 /\
  _instruction_register f = _instruction_register f0 /\
  _data f = _data f0.

(** The eight bits of a data byte, which the byte of [buffer] under the
    cursor [current] takes; after the last bit the cursor has moved
    on. *)
Definition data_sink (f0 : flash_sim.t) (base : operation_with_address.t)
    (buffer : list Z) (current : nat) (acc : Z) (k : nat) (f : flash_sim.t) : Prop :=
  _chip_state f = chip_state.operation /\
  (k <= 8)%nat /\
  0 <= acc /\
  operation_with_address._bit_index base = 0 /\
  (current < List.length buffer)%nat /\
  nth_error (_data f0)
    (Z.to_nat (operation_with_address._address base + Z.of_nat current)) = Some 0xff /\
  _operation f =
    Some (write_operation
            (match k with
             | O =>
                 write_operation.mk base
                   (assign buffer current (Z.lor (nth current buffer 0) acc))
                   (S current) 8
             | S _ =>
                 write_operation.mk base
                   (assign buffer current
                      (Z.lor (nth current buffer 0) (acc * 2 ^ Z.of_nat k)))
                   current (Z.of_nat k)
             end)) /\
  _chip_enable f = _chip_enable f0 /\
  _serial_output f = _serial_output f0 /\
  _write_enabled f = _write_enabled f0 /\
  _instruction_register f = _instruction_register f0 /\
  _data f = _data f0.

(** The twelve clock toggles after the address of a read is complete:
    the read operation [this] takes nothing. *)
Definition read_idle_sink (f0 : flash_sim.t) (this : read_operation.t)
    (acc : Z) (k : nat) (f : flash_sim.t) : Prop :=
  _chip_state f = chip_state.operation /\
  operation_with_address._bit_index (read_operation.base this) = 0 /\
  _operation f = Some (read_operation this) /\
  _chip_enable f = _chip_enable f0 /\
  _serial_output f = _serial_output f0 /\
  _write_enabled f = _write_enabled f0 /\
  _instruction_register f = _instruction_register f0 /\
  _data f = _data f0.

(** Chips and series of user operations the properties are tried on: a
    chip of 16 bytes after the unknown opcode 0xFF, the same chip after
    two write-enable commands, the user operations of the opcode 0xFF,
    and those of a write-enable command followed by the opcode and the
    address 0x010 of a page write. *)
Definition failed_opcode : flash_sim.t :=
  fst (scenario.E 0 0xff (ctor 16)).

Definition write_enabled_twice : flash_sim.t :=
  fst ((scenario.A 0 ;; scenario.A 0)%method (ctor 16)).

Definition opcode_0xff_series : list user_operation.t :=
  [user_operation.toggle_chip_enable; user_operation.toggle_serial_input]
  ++ repeat user_operation.toggle_clock 8.

Definition page_write_series : list user_operation.t := Eval vm_compute in
  get_user_operations
    (fst ((scenario.A 0 ;; toggle_chip_enable ;; clock_in_data 0 8 0x02 ;;
           clock_in_data 0 12 0x010)%method (ctor 16))).

(** * Theorems *)

(** Case analysis on the innermost tests of the goal. *)
Ltac innermost x :=
  lazymatch x with
  | context [if _ then _ else _] => fail
  | context [match _ with _ => _ end] => fail
  | _ => idtac
  end.

Ltac split_cases :=
  repeat (cbv beta iota;
          match goal with
          | |- context [if ?c then _ else _] => innermost c; destruct c
          | |- context [match ?x with _ => _ end] => innermost x; destruct x
          end).

(** ** The test of the repository *)

(** The test case of flash_sim_tests.cpp, a write-enable and a chip erase
    on a chip of 4096 bytes, runs to its end without an exception; it
    leaves the chip deselected, erased and with the write-enable flag
    clear. *)
Example flash_sim_tests_flash (g : Z) :
  let r := (scenario.A g ;; scenario.B g)%method (ctor 4096) in
  snd r = returns tt /\
  get_chip_state (fst r) = chip_state.deselected /\
  get_data (fst r) = repeat 0xff 4096 /\
  _write_enabled (fst r) = false.
Proof.
  vm_compute. repeat split; reflexivity.
Qed.

(** ** The encoding of user operations *)

(** C9: [user_operation_to_char] gives 'e', 'i', 'c' and 'w' for the four
    user operations, [char_to_user_operation] takes each of these
    characters back to its operation, and it throws for every other
    character. *)
Theorem C9_user_operation_char_round_trip :
  (user_operation_to_char user_operation.toggle_chip_enable = returns "e"%char /\
   user_operation_to_char user_operation.toggle_serial_input = returns "i"%char /\
   user_operation_to_char user_operation.toggle_clock = returns "c"%char /\
   user_operation_to_char user_operation.wait_for_write_complete = returns "w"%char) /\
  (forall op : user_operation.t,
      exists c : ascii,
        user_operation_to_char op = returns c /\
        char_to_user_operation c = returns op) /\
  (forall c : ascii,
      c <> "e"%char -> c <> "i"%char -> c <> "c"%char -> c <> "w"%char ->
      char_to_user_operation c =
        throws (invalid_argument "Cannot convert char to user_operation.")).
Proof.
  split; [repeat split | split].
  - intros op; destruct op; eexists; split; reflexivity.
  - intros c He Hi Hc Hw. unfold char_to_user_operation.
    apply Ascii.eqb_neq in He, Hi, Hc, Hw.
    rewrite He, Hi, Hc, Hw. reflexivity.
Qed.

Lemma C9_user_operation_char_round_trip_witness :
  char_to_user_operation "x"%char =
    throws (invalid_argument "Cannot convert char to user_operation.").
Proof.
  apply (proj2 (proj2 C9_user_operation_char_round_trip) "x"%char); discriminate.
Defined.

(** ** Waiting for a write *)

(** C8, as the code has it: [wait_for_write_complete] always returns
    and changes nothing: neither the chip state nor the operation log, to
    which no token is appended. *)
Theorem C8_wait_for_write_complete_changes_nothing (f : flash_sim.t) :
  wait_for_write_complete f = (f, returns tt) /\
  same_chip_state f (fst (wait_for_write_complete f)) /\
  get_user_operations (fst (wait_for_write_complete f)) = get_user_operations f.
Proof.
  unfold wait_for_write_complete, same_chip_state; cbn [fst].
  repeat split; reflexivity.
Qed.

(** C8 as stated fails on a new chip: after the call the log is still
    empty, the token of the wait is not in it. *)
Lemma C8_counterexample :
  snd (wait_for_write_complete (ctor 4096)) = returns tt /\
  get_user_operations (fst (wait_for_write_complete (ctor 4096))) <>
    get_user_operations (ctor 4096) ++ [user_operation.wait_for_write_complete].
Proof.
  split; [reflexivity | cbn; discriminate].
Qed.

(** ** The last bit of the opcode *)

Lemma toggle_clock_last_opcode_bit (g : Z) (f : flash_sim.t) :
  _chip_state f = chip_state.command ->
  _bit_index f = 1 ->
  toggle_clock g f =
    match _operation_map g (_instruction_register (opcode_clocked_in f)) with
    | None => (opcode_clocked_in f, throws failure.UnknownOpcode)
    | Some make =>
        match make (opcode_clocked_in f) with
        | (f', returns op) =>
            (set_chip_state chip_state.operation (set_operation (Some op) f'), returns tt)
        | (f', throws e) => (f', throws e)
        | (f', undefined why) => (f', undefined why)
        end
    end.
Proof.
  destruct f as [ce si so st we bi ir op data log]; cbn; intros -> ->.
  unfold toggle_clock, opcode_clocked_in, serial_input_bit; cbn.
  destruct si; reflexivity.
Qed.

(** ** Unknown opcodes *)

(** C4, as the code has it: when a clock toggle completes the
    instruction register with a byte that is none of 0x02, 0x03, 0x06 and
    0x60, the call throws the [std::out_of_range] of the opcode lookup and
    the chip stays in the command state; a chip-enable toggle after it
    throws as well and leaves the chip as it is, in the command state. *)
Theorem C4_unknown_opcode_keeps_chip_in_command (g : Z) (f : flash_sim.t) :
  _chip_state f = chip_state.command ->
  _bit_index f = 1 ->
  Z.lor (_instruction_register f) (serial_input_bit f) <> 0x02 ->
  Z.lor (_instruction_register f) (serial_input_bit f) <> 0x03 ->
  Z.lor (_instruction_register f) (serial_input_bit f) <> 0x06 ->
  Z.lor (_instruction_register f) (serial_input_bit f) <> 0x60 ->
  snd (toggle_clock g f) = throws failure.UnknownOpcode /\
  _instruction_register (fst (toggle_clock g f)) =
    Z.lor (_instruction_register f) (serial_input_bit f) /\
  _chip_state (fst (toggle_clock g f)) = chip_state.command /\
  toggle_chip_enable (fst (toggle_clock g f)) =
    (fst (toggle_clock g f),
     throws failure.InvalidTransition_chip_enable_in_command).
Proof.
  intros Hstate Hindex H02 H03 H06 H60.
  rewrite (toggle_clock_last_opcode_bit g f Hstate Hindex).
  unfold _operation_map, opcode_clocked_in; cbn [set_instruction_register _instruction_register].
  apply Z.eqb_neq in H02, H03, H06, H60. rewrite H02, H03, H06, H60.
  cbn [fst snd]. repeat split.
  - exact Hstate.
  - unfold toggle_chip_enable. cbn [_chip_state set_instruction_register set_bit_index push_back].
    rewrite Hstate. reflexivity.
Qed.

Lemma C4_unknown_opcode_keeps_chip_in_command_witness :
  let f := fst ((toggle_chip_enable ;; clock_in_data 0 7 0x7f)%method (ctor 16)) in
  snd (toggle_clock 0 f) = throws failure.UnknownOpcode /\
  _instruction_register (fst (toggle_clock 0 f)) =
    Z.lor (_instruction_register f) (serial_input_bit f) /\
  _chip_state (fst (toggle_clock 0 f)) = chip_state.command /\
  toggle_chip_enable (fst (toggle_clock 0 f)) =
    (fst (toggle_clock 0 f),
     throws failure.InvalidTransition_chip_enable_in_command).
Proof.
  apply (C4_unknown_opcode_keeps_chip_in_command 0
           (fst ((toggle_chip_enable ;; clock_in_data 0 7 0x7f)%method (ctor 16))));
    vm_compute; congruence.
Defined.

(** C4 as stated fails in Scenario E: the opcode 0xFF is refused and the
    chip stays in the command state, but the chip-enable toggle after it
    does not return and the chip is not deselected. *)
Lemma C4_counterexample :
  let f := fst (scenario.E 0 0xff (ctor 4096)) in
  snd (scenario.E 0 0xff (ctor 4096)) = throws failure.UnknownOpcode /\
  _chip_state f = chip_state.command /\
  snd (toggle_chip_enable f) <> returns tt /\
  _chip_state (fst (toggle_chip_enable f)) <> chip_state.deselected.
Proof.
  vm_compute. repeat split; discriminate.
Qed.

(** ** Writing needs the write-enable flag *)

(** C5: on a chip whose write-enable flag is clear, the clock toggle
    that completes the instruction register with 0x02 (page write) or 0x60
    (chip erase) throws the exception of the missing write-enable, and the
    memory array is what it was. *)
Theorem C5_write_and_erase_need_write_enable (g : Z) (f : flash_sim.t) :
  _chip_state f = chip_state.command ->
  _bit_index f = 1 ->
  _write_enabled f = false ->
  Z.lor (_instruction_register f) (serial_input_bit f) = 0x02 \/
  Z.lor (_instruction_register f) (serial_input_bit f) = 0x60 ->
  snd (toggle_clock g f) = throws failure.WriteEnableRequired /\
  get_data (fst (toggle_clock g f)) = get_data f.
Proof.
  intros Hstate Hindex Hwe Hopcode.
  rewrite (toggle_clock_last_opcode_bit g f Hstate Hindex).
  unfold _operation_map, opcode_clocked_in; cbn [set_instruction_register _instruction_register].
  destruct Hopcode as [-> | ->]; cbn [Z.eqb Pos.eqb];
    unfold write_operation_ctor, chip_erase_operation_ctor;
    cbn [_write_enabled set_instruction_register set_bit_index push_back];
    rewrite Hwe; cbn; split; reflexivity.
Qed.

Lemma C5_write_and_erase_need_write_enable_witness :
  let page_write := fst ((toggle_chip_enable ;; clock_in_data 0 7 0x01 ;; toggle_serial_input)%method (ctor 16)) in
  let chip_erase := fst ((toggle_chip_enable ;; clock_in_data 0 7 0x30)%method (ctor 16)) in
  (snd (toggle_clock 0 page_write) = throws failure.WriteEnableRequired /\
   get_data (fst (toggle_clock 0 page_write)) = get_data page_write) /\
  (snd (toggle_clock 0 chip_erase) = throws failure.WriteEnableRequired /\
   get_data (fst (toggle_clock 0 chip_erase)) = get_data chip_erase).
Proof.
  split.
  - apply (C5_write_and_erase_need_write_enable 0
             (fst ((toggle_chip_enable ;; clock_in_data 0 7 0x01 ;; toggle_serial_input)%method (ctor 16))));
      vm_compute; auto.
  - apply (C5_write_and_erase_need_write_enable 0
             (fst ((toggle_chip_enable ;; clock_in_data 0 7 0x30)%method (ctor 16))));
      vm_compute; auto.
Defined.

(** ** The erased check of a page write *)

(** C6: in a page write whose address is complete and whose buffer is
    not full, the clock toggle for the first bit of a byte
    ([_bit_index] 8) throws the exception of the non-erased byte when the
    memory byte at the address plus the byte offset is not 0xFF, whatever
    the serial-input pin holds; the clock toggle for a later bit of a byte
    ([_bit_index] 7 down to 1) returns, whatever the memory holds. *)
Theorem C6_non_erased_byte_refused_at_first_bit
    (g : Z) (f : flash_sim.t) (this : write_operation.t) :
  _chip_state f = chip_state.operation ->
  _operation f = Some (write_operation this) ->
  operation_with_address._bit_index (write_operation.base this) = 0 ->
  (write_operation._current_byte this < List.length (write_operation._write_buffer this))%nat ->
  (forall b : Z,
      write_operation._bit_index this = 8 ->
      nth_error (_data f)
        (Z.to_nat (operation_with_address._address (write_operation.base this)
                   + Z.of_nat (write_operation._current_byte this))) = Some b ->
      b <> 0xff ->
      snd (toggle_clock g f) = throws failure.NonErasedByteWrite) /\
  (1 <= write_operation._bit_index this <= 7 ->
   snd (toggle_clock g f) = returns tt).
Proof.
  intros Hstate Hop Haddress Hcurrent.
  assert (Hnotfull :
            (write_operation._current_byte this
             =? List.length (write_operation._write_buffer this))%nat = false)
    by (apply Nat.eqb_neq; lia).
  unfold toggle_clock. rewrite Hstate, Hop.
  unfold operation_toggle_clock, operation_with_address_toggle_clock.
  rewrite Haddress. cbn [Z.eqb negb].
  unfold write_operation_toggle_clock_impl. rewrite Hnotfull.
  unfold write_operation_erased_check, operation_with_address_address.
  rewrite Haddress. cbn [Z.eqb negb _data push_back].
  split.
  - intros b Hbit Hbyte Hne. rewrite Hbit, Hbyte. cbn [Z.eqb Pos.eqb].
    apply Z.eqb_neq in Hne. rewrite Hne. reflexivity.
  - intros Hbit.
    assert (Hne : (write_operation._bit_index this =? 8) = false)
      by (apply Z.eqb_neq; lia).
    rewrite Hne.
    assert (Hshift : (32 <=? (write_operation._bit_index this - 1) mod 256) = false).
    { apply Z.leb_gt. rewrite Z.mod_small; lia. }
    unfold byte_shl. rewrite Hshift.
    destruct ((write_operation._bit_index this - 1) mod 256 =? 0); reflexivity.
Qed.

Lemma C6_non_erased_byte_refused_at_first_bit_witness :
  let first_bit :=
    fst ((scenario.A 0 ;; toggle_chip_enable ;; clock_in_data 0 8 0x02 ;;
          clock_in_data 0 12 0)%method (ctor 16)) in
  let second_bit :=
    fst ((scenario.A 0 ;; scenario.B 0 ;; scenario.A 0 ;; toggle_chip_enable ;;
          clock_in_data 0 8 0x02 ;; clock_in_data 0 12 0 ;; toggle_clock 0)%method
           (ctor 16)) in
  snd (toggle_clock 0 first_bit) = throws failure.NonErasedByteWrite /\
  snd (toggle_clock 0 second_bit) = returns tt.
Proof.
  split.
  - apply (proj1 (C6_non_erased_byte_refused_at_first_bit 0
             (fst ((scenario.A 0 ;; toggle_chip_enable ;; clock_in_data 0 8 0x02 ;;
                    clock_in_data 0 12 0)%method (ctor 16)))
             (write_operation.mk (operation_with_address.mk 0 0) (repeat 0 256) 0 8)
             eq_refl eq_refl eq_refl ltac:(vm_compute; lia)) 0);
      vm_compute; congruence.
  - apply (proj2 (C6_non_erased_byte_refused_at_first_bit 0
             (fst ((scenario.A 0 ;; scenario.B 0 ;; scenario.A 0 ;; toggle_chip_enable ;;
                    clock_in_data 0 8 0x02 ;; clock_in_data 0 12 0 ;; toggle_clock 0)%method
                     (ctor 16)))
             (write_operation.mk (operation_with_address.mk 0 0) (repeat 0 256) 0 7)
             eq_refl eq_refl eq_refl ltac:(vm_compute; lia)));
      vm_compute; split; congruence.
Defined.

(** ** What a call through [_operation] leaves alone *)

(** A clock toggle of an operation touches the operation object only. *)
Lemma operation_toggle_clock_flash (op : operation) (f : flash_sim.t) :
  snd (fst (operation_toggle_clock (op, f))) = f.
Proof.
  destruct op as [this | this | | ];
    unfold operation_toggle_clock, operation_with_address_toggle_clock,
      read_operation_toggle_clock_impl, write_operation_toggle_clock_impl,
      write_enable_operation_toggle_clock, chip_erase_operation_toggle_clock, ret;
    cbv beta iota; split_cases; reflexivity.
Qed.

(** A chip-enable toggle of an operation changes the memory array and the
    write-enable flag at most. *)
Lemma operation_toggle_chip_enable_flash (op : operation) (f : flash_sim.t) :
  exists (data : list Z) (we : bool),
    snd (fst (operation_toggle_chip_enable (op, f))) =
      set_write_enabled we (set_data data f).
Proof.
  assert (Hsame : f = set_write_enabled (_write_enabled f) (set_data (_data f) f))
    by (destruct f; reflexivity).
  destruct op as [this | this | | ];
    unfold operation_toggle_chip_enable, operation_with_address_toggle_chip_enable,
      read_operation_toggle_chip_enable_impl, write_operation_toggle_chip_enable_impl,
      write_enable_operation_toggle_chip_enable, chip_erase_operation_toggle_chip_enable, ret;
    cbv beta iota; split_cases; cbn [fst snd];
    first [ eexists _, _; exact Hsame
          | eexists _, _; reflexivity
          | exists (_data f), true; destruct f; reflexivity ].
Qed.

(** A constructor of an operation reads the chip and changes nothing. *)
Lemma operation_ctor_flash (g opcode : Z) (make : method flash_sim.t operation) (f : flash_sim.t) :
  _operation_map g opcode = Some make -> fst (make f) = f.
Proof.
  unfold _operation_map; split_cases; intros [= <-];
    unfold write_operation_ctor, read_operation_ctor, write_enable_operation_ctor,
      chip_erase_operation_ctor; split_cases; reflexivity.
Qed.

(** ** The operation log *)

(** A call that returns appends its token to the log, but for
    [wait_for_write_complete], which leaves the chip as it is. *)
Lemma perform_user_operation_log (g : Z) (op : user_operation.t) (f f' : flash_sim.t) :
  perform_user_operation g op f = (f', returns tt) ->
  if logged op
  then get_user_operations f' = get_user_operations f ++ [op]
  else f' = f.
Proof.
  unfold get_user_operations.
  destruct op; cbn [logged user_operation.eqb negb];
    unfold perform_user_operation, flash.perform_user_operation;
    cbn [is_flash flash.toggle_chip_enable flash.toggle_serial_input flash.toggle_clock
         flash.wait_for_write_complete].
  - (* toggle_chip_enable *)
    unfold toggle_chip_enable.
    destruct (_chip_state f); try discriminate.
    + intros [= <-]. reflexivity.
    + destruct (_operation f) as [op|]; try discriminate.
      pose proof (operation_toggle_chip_enable_flash op
                    (push_back user_operation.toggle_chip_enable f)) as (data & we & Hflash).
      destruct (operation_toggle_chip_enable _) as [[op' f1] r].
      cbn [fst snd] in Hflash. subst f1.
      destruct r; try discriminate. intros [= <-]. reflexivity.
  - (* toggle_serial_input *)
    unfold toggle_serial_input.
    destruct (_chip_state f); try discriminate;
      (destruct (back (_user_operations f)) as [last|]; try discriminate;
       destruct (user_operation.eqb last _); try discriminate;
       intros [= <-]; reflexivity).
  - (* toggle_clock *)
    unfold toggle_clock.
    destruct (_chip_state f); try discriminate.
    + destruct (byte_shl _ _) as [bit|]; try discriminate.
      destruct (_ =? 0).
      * destruct (_operation_map g _) as [make|] eqn:Hmake; try discriminate.
        pose proof (operation_ctor_flash g _ make
                      (set_instruction_register
                         (Z.lor (_instruction_register
                                   (set_bit_index ((_bit_index (push_back user_operation.toggle_clock f) - 1) mod 256)
                                      (push_back user_operation.toggle_clock f))) bit)
                         (set_bit_index ((_bit_index (push_back user_operation.toggle_clock f) - 1) mod 256)
                            (push_back user_operation.toggle_clock f))) Hmake) as Hflash.
        destruct (make _) as [f1 r]. cbn [fst] in Hflash. subst f1.
        destruct r; try discriminate. intros [= <-]. reflexivity.
      * intros [= <-]. reflexivity.
    + destruct (_operation f) as [op|]; try discriminate.
      pose proof (operation_toggle_clock_flash op
                    (push_back user_operation.toggle_clock f)) as Hflash.
      destruct (operation_toggle_clock _) as [[op' f1] r].
      cbn [fst snd] in Hflash. subst f1.
      intros [= <- _]. reflexivity.
  - (* wait_for_write_complete *)
    unfold wait_for_write_complete. intros [= <-]. reflexivity.
Qed.

(** A series of calls that all return leaves its logged operations at the
    end of the log, and performing only those takes the chip to the same
    state. *)
Lemma perform_user_operations_log (g : Z) (ops : list user_operation.t) :
  forall f f' : flash_sim.t,
    perform_user_operations g ops f = (f', returns tt) ->
    get_user_operations f' = get_user_operations f ++ filter logged ops /\
    perform_user_operations g (filter logged ops) f = (f', returns tt).
Proof.
  induction ops as [|op ops IH]; intros f f'; cbn [perform_user_operations filter].
  - unfold ret. intros [= <-]. rewrite app_nil_r. split; reflexivity.
  - unfold bind at 1.
    destruct (perform_user_operation g op f) as [f1 r] eqn:Hcall.
    destruct r as [[]| |]; try discriminate.
    intros Hrest. destruct (IH f1 f' Hrest) as [Hlog Hreplay].
    pose proof (perform_user_operation_log g op f f1 Hcall) as Hop.
    destruct (logged op).
    + split.
      * rewrite Hlog, Hop, <- app_assoc. reflexivity.
      * cbn [perform_user_operations]. unfold bind at 1.
        rewrite Hcall. exact Hreplay.
    + subst f1. split; assumption.
Qed.

(** When the operation objects of the run and those of the replay all
    start from the same value of the uninitialised [_address], the log of
    a run without a failure replays without a failure on a second new
    chip of [n] bytes, and ends with the same memory array and the same
    chip-enable, serial-input and serial-output pin states. *)
Lemma replay_with_the_same_indeterminate_address
    (g : Z) (n : nat) (ops : list user_operation.t) (f : flash_sim.t) :
  perform_user_operations g ops (ctor n) = (f, returns tt) ->
  exists f' : flash_sim.t,
    perform_user_operations g (get_user_operations f) (ctor n) = (f', returns tt) /\
    get_data f' = get_data f /\
    get_chip_enable f' = get_chip_enable f /\
    get_serial_input f' = get_serial_input f /\
    get_serial_output f' = get_serial_output f.
Proof.
  intros Hrun.
  destruct (perform_user_operations_log g ops (ctor n) f Hrun) as [Hlog Hreplay].
  cbn [get_user_operations ctor _user_operations app] in Hlog.
  exists f. rewrite Hlog. repeat split. exact Hreplay.
Qed.

(** C7: the replay of an operation log is not deterministic, because the
    address of a page write starts from the uninitialised [_address] of
    its operation object. On a new chip of 512 bytes whose page-write
    object happens to hold 0, a write-enable, a chip erase and a page
    write of 0xAB at address 0 are performed without a failure, the log
    is that series, and byte 256 of the memory array ends as 0xAB. The
    same log performed on a second new chip of 512 bytes whose page-write
    object happens to hold 512 fails: the first data clock throws
    [std::out_of_range] from [_data.at(512)], 61 of the 75 operations are
    in the log of the second chip, and byte 256 of its memory array is
    still 0xFF. *)
Theorem C7_replay_depends_on_the_uninitialised_address :
  exists f f' : flash_sim.t,
    perform_user_operations 0 C7_page_write_series (ctor 512) = (f, returns tt) /\
    get_user_operations f = C7_page_write_series /\
    nth_error (get_data f) 256 = Some 0xab /\
    perform_user_operations 512 (get_user_operations f) (ctor 512) =
      (f', throws (out_of_range "_data.at")) /\
    List.length (get_user_operations f') = 61%nat /\
    nth_error (get_data f') 256 = Some 0xff /\
    get_data f' <> get_data f.
Proof.
  exists (fst (perform_user_operations 0 C7_page_write_series (ctor 512))),
         (fst (perform_user_operations 512 C7_page_write_series (ctor 512))).
  split; [vm_compute; reflexivity |].
  split; [vm_compute; reflexivity |].
  split; [vm_compute; reflexivity |].
  split; [vm_compute; reflexivity |].
  split; [vm_compute; reflexivity |].
  split; [vm_compute; reflexivity |].
  intros Hsame.
  apply (f_equal (fun data => nth_error data 256)) in Hsame.
  vm_compute in Hsame. discriminate.
Qed.

(** ** The operation object and the log are there when they are used *)

Lemma push_back_not_empty {A : Type} (v : list A) (x : A) : v ++ [x] <> [].
Proof. destruct v; discriminate. Qed.

Lemma back_not_empty {A : Type} (v : list A) : v <> [] -> back v <> None.
Proof.
  induction v as [|x v IH]; [congruence|].
  intros _. destruct v as [|y v]; [discriminate|].
  change (back (x :: y :: v)) with (back (y :: v)). apply IH. discriminate.
Qed.

Ltac close_invariant :=
  unfold operation_present, log_started; cbn;
  try match goal with H : _chip_state _ = _ |- _ => rewrite ?H end;
  split; intros; try discriminate; try apply push_back_not_empty;
  try tauto.

(** Every call keeps the two facts, however it ends. *)
Lemma perform_user_operation_keeps (g : Z) (op : user_operation.t) (f : flash_sim.t) :
  operation_present f /\ log_started f ->
  operation_present (fst (perform_user_operation g op f)) /\
  log_started (fst (perform_user_operation g op f)).
Proof.
  intros Hf.
  destruct op;
    unfold perform_user_operation, flash.perform_user_operation;
    cbn [is_flash flash.toggle_chip_enable flash.toggle_serial_input flash.toggle_clock
         flash.wait_for_write_complete].
  - (* toggle_chip_enable *)
    unfold toggle_chip_enable.
    destruct (_chip_state f) eqn:Hstate; cbn [fst]; try exact Hf.
    + close_invariant.
    + destruct (_operation f) as [op|]; cbn [fst]; try exact Hf.
      pose proof (operation_toggle_chip_enable_flash op
                    (push_back user_operation.toggle_chip_enable f)) as (data & we & Hflash).
      destruct (operation_toggle_chip_enable _) as [[op' f1] r].
      cbn [fst snd] in Hflash. subst f1.
      destruct r; close_invariant.
  - (* toggle_serial_input *)
    unfold toggle_serial_input.
    destruct (_chip_state f) eqn:Hstate; cbn [fst]; try exact Hf;
      (destruct (back (_user_operations f)) as [last|]; cbn [fst]; try exact Hf;
       destruct (user_operation.eqb last _); cbn [fst]; try exact Hf;
       destruct Hf as [Hpresent Hlog]; unfold operation_present, log_started in *; cbn;
       rewrite Hstate in *; split; intros; try apply push_back_not_empty; auto).
  - (* toggle_clock *)
    unfold toggle_clock.
    destruct (_chip_state f) eqn:Hstate; cbn [fst]; try exact Hf.
    + destruct (byte_shl _ _) as [bit|]; [|close_invariant].
      destruct (_ =? 0).
      * destruct (_operation_map g _) as [make|] eqn:Hmake;
          [|close_invariant].
        pose proof (operation_ctor_flash g _ make
                      (set_instruction_register
                         (Z.lor (_instruction_register
                                   (set_bit_index ((_bit_index (push_back user_operation.toggle_clock f) - 1) mod 256)
                                      (push_back user_operation.toggle_clock f))) bit)
                         (set_bit_index ((_bit_index (push_back user_operation.toggle_clock f) - 1) mod 256)
                            (push_back user_operation.toggle_clock f))) Hmake) as Hflash.
        destruct (make _) as [f1 r]. cbn [fst] in Hflash. subst f1.
        destruct r; close_invariant.
      * close_invariant.
    + destruct (_operation f) as [op|]; cbn [fst]; try exact Hf.
      pose proof (operation_toggle_clock_flash op
                    (push_back user_operation.toggle_clock f)) as Hflash.
      destruct (operation_toggle_clock _) as [[op' f1] r].
      cbn [fst snd] in Hflash. subst f1. close_invariant.
  - (* wait_for_write_complete *)
    exact Hf.
Qed.

Lemma reachable_keeps (g : Z) (n : nat) (f : flash_sim.t) :
  reachable g n f -> operation_present f /\ log_started f.
Proof.
  induction 1 as [|f f' op r _ IH Hcall _].
  - unfold operation_present, log_started; cbn.
    split; [discriminate | intros [|]; discriminate].
  - replace f' with (fst (perform_user_operation g op f)) by (rewrite Hcall; reflexivity).
    apply perform_user_operation_keeps, IH.
Qed.

(** No member of an operation throws a [std::logic_error]. *)
Lemma operation_toggle_chip_enable_no_logic_error
    (op : operation) (f : flash_sim.t) (what : string) :
  snd (operation_toggle_chip_enable (op, f)) <> throws (logic_error what).
Proof.
  destruct op as [this | this | | ];
    unfold operation_toggle_chip_enable, operation_with_address_toggle_chip_enable,
      read_operation_toggle_chip_enable_impl, write_operation_toggle_chip_enable_impl,
      write_enable_operation_toggle_chip_enable, chip_erase_operation_toggle_chip_enable, ret;
    split_cases; discriminate.
Qed.

Lemma operation_toggle_clock_no_logic_error
    (op : operation) (f : flash_sim.t) (what : string) :
  snd (operation_toggle_clock (op, f)) <> throws (logic_error what).
Proof.
  destruct op as [this | this | | ];
    unfold operation_toggle_clock, operation_with_address_toggle_clock,
      read_operation_toggle_clock_impl, write_operation_toggle_clock_impl,
      write_operation_erased_check, operation_with_address_address,
      write_enable_operation_toggle_clock, chip_erase_operation_toggle_clock, ret;
    split_cases; discriminate.
Qed.

Lemma operation_ctor_no_logic_error
    (g opcode : Z) (make : method flash_sim.t operation) (f : flash_sim.t) (what : string) :
  _operation_map g opcode = Some make -> snd (make f) <> throws (logic_error what).
Proof.
  unfold _operation_map; split_cases; intros [= <-];
    unfold write_operation_ctor, read_operation_ctor, write_enable_operation_ctor,
      chip_erase_operation_ctor; split_cases; discriminate.
Qed.

(** C10: in every state a new chip gets into by calls of the user
    operations, returning or throwing, a chip in the operation state owns
    an operation object and a chip in the command or operation state has a
    log that is not empty; so no toggle throws the [std::logic_error] of
    the missing operation, and [toggle_serial_input] never asks an empty
    log for its last element. *)
Theorem C10_operation_and_log_are_present (g : Z) (n : nat) (f : flash_sim.t) :
  reachable g n f ->
  (get_chip_state f = chip_state.operation -> _operation f <> None) /\
  (get_chip_state f = chip_state.command \/ get_chip_state f = chip_state.operation ->
   get_user_operations f <> []) /\
  (forall what : string, snd (toggle_chip_enable f) <> throws (logic_error what)) /\
  (forall what : string, snd (toggle_clock g f) <> throws (logic_error what)) /\
  (forall why : string, snd (toggle_serial_input f) <> undefined why).
Proof.
  intros Hreach. destruct (reachable_keeps g n f Hreach) as [Hpresent Hlog].
  unfold operation_present, log_started in *.
  unfold get_chip_state, get_user_operations.
  split; [exact Hpresent | split; [exact Hlog |]].
  split; [| split]; intros text.
  - unfold toggle_chip_enable.
    destruct (_chip_state f) eqn:Hstate; cbn [snd]; try discriminate.
    destruct (_operation f) as [op|]; [| exfalso; apply Hpresent; reflexivity].
    pose proof (operation_toggle_chip_enable_no_logic_error op
                  (push_back user_operation.toggle_chip_enable f) text) as Hop.
    destruct (operation_toggle_chip_enable _) as [[op' f1] r].
    cbn [snd] in Hop. destruct r; cbn [snd]; try discriminate. exact Hop.
  - unfold toggle_clock.
    destruct (_chip_state f) eqn:Hstate; cbn [snd]; try discriminate.
    + destruct (byte_shl _ _) as [bit|]; cbn [snd]; try discriminate.
      destruct (_ =? 0); cbn [snd]; try discriminate.
      destruct (_operation_map g _) as [make|] eqn:Hmake; cbn [snd]; try discriminate.
      pose proof (operation_ctor_no_logic_error g _ make
                    (set_instruction_register
                       (Z.lor (_instruction_register
                                 (set_bit_index ((_bit_index (push_back user_operation.toggle_clock f) - 1) mod 256)
                                    (push_back user_operation.toggle_clock f))) bit)
                       (set_bit_index ((_bit_index (push_back user_operation.toggle_clock f) - 1) mod 256)
                          (push_back user_operation.toggle_clock f))) text Hmake) as Hctor.
      destruct (make _) as [f1 r]. cbn [snd] in Hctor.
      destruct r; cbn [snd]; try discriminate.
      intros Hthrown. apply Hctor. congruence.
    + destruct (_operation f) as [op|]; [| exfalso; apply Hpresent; reflexivity].
      pose proof (operation_toggle_clock_no_logic_error op
                    (push_back user_operation.toggle_clock f) text) as Hop.
      destruct (operation_toggle_clock _) as [[op' f1] r].
      cbn [snd] in *. exact Hop.
  - unfold toggle_serial_input.
    destruct (_chip_state f) eqn:Hstate; cbn [snd]; try discriminate;
      (destruct (back (_user_operations f)) as [last|] eqn:Hback;
       [ destruct (user_operation.eqb last _); discriminate
       | exfalso; apply (back_not_empty (_user_operations f)); auto ]).
Qed.

Lemma C10_operation_and_log_are_present_witness :
  let f := fst (toggle_chip_enable (ctor 16)) in
  (get_chip_state f = chip_state.operation -> _operation f <> None) /\
  (get_chip_state f = chip_state.command \/ get_chip_state f = chip_state.operation ->
   get_user_operations f <> []) /\
  (forall what : string, snd (toggle_chip_enable f) <> throws (logic_error what)) /\
  (forall what : string, snd (toggle_clock 0 f) <> throws (logic_error what)) /\
  (forall why : string, snd (toggle_serial_input f) <> undefined why).
Proof.
  apply (C10_operation_and_log_are_present 0 16 (fst (toggle_chip_enable (ctor 16)))).
  apply (reachable_call 0 16 (ctor 16) _ user_operation.toggle_chip_enable (returns tt)).
  - apply reachable_ctor.
  - vm_compute. reflexivity.
  - discriminate.
Defined.

(** ** A failing call *)

(** C3 does not hold of the code; two failing clock toggles on a new
    chip of 4096 bytes show it. The eighth clock toggle of the opcode
    0xFF throws the exception of the unknown opcode after it has been
    logged, has counted [_bit_index] down and has set bit 0 of the
    instruction register. A clock toggle during a write-enable operation
    throws after it has been logged. *)
Theorem C3_failing_clock_toggle_is_logged (g : Z) :
  let f := fst ((toggle_chip_enable ;; clock_in_data g 7 0x7f)%method (ctor 4096)) in
  let e := fst ((toggle_chip_enable ;; clock_in_data g 8 0x06)%method (ctor 4096)) in
  (snd (toggle_clock g f) = throws failure.UnknownOpcode /\
   get_user_operations (fst (toggle_clock g f)) =
     get_user_operations f ++ [user_operation.toggle_clock] /\
   _bit_index f = 1 /\ _bit_index (fst (toggle_clock g f)) = 0 /\
   _instruction_register f = 0xfe /\
   _instruction_register (fst (toggle_clock g f)) = 0xff /\
   ~ same_chip_state f (fst (toggle_clock g f))) /\
  (snd (toggle_clock g e) =
     throws (runtime_error "Write enable does not require clock toggling.") /\
   get_user_operations (fst (toggle_clock g e)) =
     get_user_operations e ++ [user_operation.toggle_clock]).
Proof.
  unfold same_chip_state. vm_compute.
  repeat split; try reflexivity.
  intros (_ & _ & _ & _ & Hindex & _). discriminate Hindex.
Qed.

(** ** Reading *)

(** No user operation changes the serial-output pin. *)
Lemma perform_user_operation_serial_output (g : Z) (op : user_operation.t) (f : flash_sim.t) :
  get_serial_output (fst (perform_user_operation g op f)) = get_serial_output f.
Proof.
  unfold get_serial_output.
  destruct op;
    unfold perform_user_operation, flash.perform_user_operation;
    cbn [is_flash flash.toggle_chip_enable flash.toggle_serial_input flash.toggle_clock
         flash.wait_for_write_complete].
  - unfold toggle_chip_enable.
    destruct (_chip_state f); try reflexivity.
    destruct (_operation f) as [op|]; try reflexivity.
    pose proof (operation_toggle_chip_enable_flash op
                  (push_back user_operation.toggle_chip_enable f)) as (data & we & Hflash).
    destruct (operation_toggle_chip_enable _) as [[op' f1] r].
    cbn [fst snd] in Hflash. subst f1. destruct r; reflexivity.
  - unfold toggle_serial_input.
    destruct (_chip_state f); try reflexivity;
      (destruct (back (_user_operations f)) as [last|]; try reflexivity;
       destruct (user_operation.eqb last _); reflexivity).
  - unfold toggle_clock.
    destruct (_chip_state f); try reflexivity.
    + destruct (byte_shl _ _) as [bit|]; try reflexivity.
      destruct (_ =? 0); try reflexivity.
      destruct (_operation_map g _) as [make|] eqn:Hmake; try reflexivity.
      pose proof (operation_ctor_flash g _ make
                    (set_instruction_register
                       (Z.lor (_instruction_register
                                 (set_bit_index ((_bit_index (push_back user_operation.toggle_clock f) - 1) mod 256)
                                    (push_back user_operation.toggle_clock f))) bit)
                       (set_bit_index ((_bit_index (push_back user_operation.toggle_clock f) - 1) mod 256)
                          (push_back user_operation.toggle_clock f))) Hmake) as Hflash.
      destruct (make _) as [f1 r]. cbn [fst] in Hflash. subst f1.
      destruct r; reflexivity.
    + destruct (_operation f) as [op|]; try reflexivity.
      pose proof (operation_toggle_clock_flash op
                    (push_back user_operation.toggle_clock f)) as Hflash.
      destruct (operation_toggle_clock _) as [[op' f1] r].
      cbn [fst snd] in Hflash. subst f1. reflexivity.
  - reflexivity.
Qed.

(** C2 does not hold of the code: no user operation ever changes the
    serial-output pin, and a clock toggle of a read whose address is
    complete does nothing. The byte a read clocks out of an erased chip
    (Scenarios A and B, then D) is 0x00, where every byte of the memory
    array is 0xFF; after Scenario C the byte clocked out at 0x000010 is 0x00
    as well. The memory array is not changed by the read. *)
Theorem C2_read_clocks_out_zero (g : Z) :
  (forall (op : user_operation.t) (f : flash_sim.t),
      get_serial_output (fst (perform_user_operation g op f)) = get_serial_output f) /\
  (let erased := fst ((scenario.A g ;; scenario.B g)%method (ctor 4096)) in
   get_data erased = repeat 0xff 4096 /\
   snd (scenario.D g 24 0x000010 erased) = returns 0x00 /\
   get_data (fst ((scenario.D g 24 0x000010 ;; toggle_chip_enable)%method erased)) =
     get_data erased) /\
  (let written :=
     fst ((scenario.A 0 ;; scenario.B 0 ;; scenario.C 0 24 0x000010 0xab)%method (ctor 4096)) in
   snd (scenario.D 0 24 0x000010 written) = returns 0x00).
Proof.
  split; [intros op f; apply perform_user_operation_serial_output |].
  split; vm_compute; repeat split; reflexivity.
Qed.

(** ** Committing a page write *)

(** The commit of a page write does not look at the address: the whole
    buffer goes to the bytes 256 to 511 of the memory array. *)
Lemma write_operation_commit_ignores_address (this : write_operation.t) (f : flash_sim.t) :
  List.length (write_operation._write_buffer this) = 256%nat ->
  (512 <= List.length (_data f))%nat ->
  write_operation_toggle_chip_enable_impl (this, f) =
    ((this,
      set_write_enabled false
        (set_data (firstn 256 (_data f) ++ write_operation._write_buffer this
                   ++ skipn 512 (_data f)) f)),
     returns tt).
Proof.
  intros Hbuffer Hdata. unfold write_operation_toggle_chip_enable_impl, copy.
  rewrite Hbuffer. change (256 + 256)%nat with 512%nat.
  apply Nat.leb_le in Hdata. rewrite Hdata. reflexivity.
Qed.

(** C1 does not hold of the code. In Scenario C on an erased chip of
    4096 bytes the calls all return and the write-enable flag is cleared,
    but the byte at 0x10 is still 0xFF: the first 12 bits clocked in after
    the opcode are the address, the other 12 bits of the 24-bit address and
    the data byte 0xAB go to the write buffer as 0x01, 0x0A and a high
    nibble 0xB, and the chip-enable toggle copies all 256 bytes of the
    buffer to the bytes 256 to 511. With the address clocked in as 12
    bits, 0xAB lands at byte 256 and the 255 bytes after it become 0x00. *)
Theorem C1_page_write_commits_whole_buffer_at_256 :
  let erased := fst ((scenario.A 0 ;; scenario.B 0)%method (ctor 4096)) in
  let wide := scenario.C 0 24 0x000010 0xab erased in
  let narrow := scenario.C 0 12 0x010 0xab erased in
  get_data erased = repeat 0xff 4096 /\
  (snd wide = returns tt /\
   _write_enabled (fst wide) = false /\
   nth_error (get_data (fst wide)) 0x10 = Some 0xff /\
   get_data (fst wide) =
     repeat 0xff 256 ++ [0x01; 0x0a; 0xb0] ++ repeat 0x00 253 ++ repeat 0xff 3584) /\
  (snd narrow = returns tt /\
   _write_enabled (fst narrow) = false /\
   nth_error (get_data (fst narrow)) 0x10 = Some 0xff /\
   get_data (fst narrow) =
     repeat 0xff 256 ++ [0xab] ++ repeat 0x00 255 ++ repeat 0xff 3584).
Proof.
  vm_compute. repeat split; reflexivity.
Qed.

(** * Further properties *)
(** ** What one call can change *)

Lemma copy_length {A : Type} (src dst dst' : list A) (pos : nat) :
  copy src dst pos = Some dst' -> List.length dst' = List.length dst.
Proof.
  unfold copy. destruct (pos + List.length src <=? List.length dst)%nat eqn:Hfit;
    [|discriminate].
  apply Nat.leb_le in Hfit. intros [= <-].
  rewrite !length_app, length_firstn, length_skipn. lia.
Qed.

Lemma set_same (f : flash_sim.t) :
  set_write_enabled (_write_enabled f) (set_data (_data f) f) = f.
Proof. destruct f; reflexivity. Qed.

(** The chip-enable toggle of an operation: the operation object is
    left as it is, and of the chip only the memory array and the
    write-enable flag can change, each with its own operation. *)
Lemma operation_toggle_chip_enable_effect (op : operation) (f : flash_sim.t) :
  exists (data : list Z) (we : bool),
    fst (operation_toggle_chip_enable (op, f)) =
      (op, set_write_enabled we (set_data data f)) /\
    List.length data = List.length (_data f) /\
    (snd (operation_toggle_chip_enable (op, f)) <> returns tt ->
     data = _data f /\ we = _write_enabled f) /\
    (we <> _write_enabled f \/ data <> _data f ->
     (we = true /\ op = write_enable_operation /\ data = _data f) \/
     (we = false /\
      (op = chip_erase_operation \/ exists this, op = write_operation this))).
Proof.
  destruct op as [this | this | | ];
    unfold operation_toggle_chip_enable, operation_with_address_toggle_chip_enable,
      read_operation_toggle_chip_enable_impl, write_operation_toggle_chip_enable_impl,
      write_enable_operation_toggle_chip_enable, chip_erase_operation_toggle_chip_enable, ret;
    cbv beta iota.
  - exists (_data f), (_write_enabled f). rewrite set_same.
    destruct (negb _); cbn [fst snd]; (split; [reflexivity | split; [reflexivity | tauto]]).
  - destruct (negb _); cbn [fst snd].
    + exists (_data f), (_write_enabled f). rewrite set_same.
      split; [reflexivity | split; [reflexivity | tauto]].
    + destruct (copy _ _ _) as [data|] eqn:Hcopy; cbn [fst snd].
      * exists data, false.
        split; [reflexivity | split; [eapply copy_length; eassumption | split]].
        -- congruence.
        -- intros _. right. split; [reflexivity | right; eexists; reflexivity].
      * exists (_data f), (_write_enabled f). rewrite set_same.
        split; [reflexivity | split; [reflexivity | tauto]].
  - destruct (_write_enabled f) eqn:Hwe; cbn [fst snd].
    + assert (Hsame : set_write_enabled true (set_data (_data f) f) = f)
        by (rewrite <- Hwe; apply set_same).
      exists (_data f), true. rewrite Hsame.
      split; [reflexivity | split; [reflexivity | tauto]].
    + exists (_data f), true.
      split; [destruct f; reflexivity | split; [reflexivity | split]].
      * congruence.
      * intros _. left. repeat split.
  - cbn [fst snd]. exists (map (fun _ => 0xff) (_data f)), false.
    split; [reflexivity | split; [apply length_map | split]].
    + congruence.
    + intros _. right. split; [reflexivity | left; reflexivity].
Qed.

(** The clock toggle of an operation that throws has changed nothing. *)
Lemma operation_toggle_clock_throws (op : operation) (f : flash_sim.t) (e : exception) :
  snd (operation_toggle_clock (op, f)) = throws e ->
  fst (operation_toggle_clock (op, f)) = (op, f).
Proof.
  destruct op as [[base] | this | | ];
    unfold operation_toggle_clock, operation_with_address_toggle_clock,
      read_operation_toggle_clock_impl, write_operation_toggle_clock_impl,
      write_enable_operation_toggle_clock, chip_erase_operation_toggle_clock, ret;
    split_cases; cbn [fst snd]; try discriminate; reflexivity.
Qed.

Ltac call_unchanged :=
  match goal with
  | |- exists si st we bi ir o data suffix,
        fst (?f, _) = _ /\ _ =>
      exists (_serial_input f), (_chip_state f), (_write_enabled f), (_bit_index f),
        (_instruction_register f), (_operation f), (_data f), [];
      cbn [fst snd _chip_enable _serial_input _serial_output _chip_state _write_enabled
           _bit_index _instruction_register _operation _data _user_operations];
      rewrite app_nil_r;
      split; [reflexivity | split; [left; reflexivity | split; [reflexivity |]]];
      split; [intros; repeat split; reflexivity |];
      split; [intros; split; reflexivity | intros [Hdiff | Hdiff]; cbn in Hdiff; congruence]
  end.

(** One call of a user operation, however it ends: the chip-enable and
    serial-output pins and the length of the memory array are kept, the
    log gets no more than the token of the call at its end, and the other
    members change under the conditions listed. *)
Lemma call_effect (g : Z) (op : user_operation.t) (f : flash_sim.t) :
  exists si st we bi ir o data suffix,
    fst (perform_user_operation g op f) =
      flash_sim.mk (_chip_enable f) si (_serial_output f) st we bi ir o data
        (_user_operations f ++ suffix) /\
    (suffix = [] \/ suffix = [op]) /\
    List.length data = List.length (_data f) /\
    (forall e : exception,
        snd (perform_user_operation g op f) = throws e ->
        si = _serial_input f /\ st = _chip_state f /\ we = _write_enabled f /\
        o = _operation f /\ data = _data f) /\
    (op <> user_operation.toggle_chip_enable ->
     we = _write_enabled f /\ data = _data f) /\
    (we <> _write_enabled f \/ data <> _data f ->
     snd (perform_user_operation g op f) = returns tt /\
     _chip_state f = chip_state.operation /\ st = chip_state.deselected /\
     exists active : operation,
       _operation f = Some active /\
       ((we = true /\ active = write_enable_operation /\ data = _data f) \/
        (we = false /\
         (active = chip_erase_operation \/ exists this, active = write_operation this)))).
Proof.
  destruct f as [ce si so st we bi ir o data log].
  destruct op;
    unfold perform_user_operation, flash.perform_user_operation;
    cbn [is_flash flash.toggle_chip_enable flash.toggle_serial_input flash.toggle_clock
         flash.wait_for_write_complete].
  - (* toggle_chip_enable *)
    unfold toggle_chip_enable; cbn [_chip_state _operation].
    destruct st.
    + cbn. eexists _, _, _, _, _, _, _, [_].
      split; [reflexivity | split; [right; reflexivity | split; [reflexivity |]]].
      split; [discriminate | split; [intros Hne; elim Hne; reflexivity | intros [Hdiff | Hdiff]; cbn in Hdiff; congruence]].
    + call_unchanged.
    + destruct o as [active|]; [| call_unchanged].
      destruct (operation_toggle_chip_enable_effect active
                  (push_back user_operation.toggle_chip_enable
                     (flash_sim.mk ce si so chip_state.operation we bi ir (Some active) data log)))
        as (data' & we' & Hfst & Hlength & Hfail & Hchange).
      destruct (operation_toggle_chip_enable _) as [[op' f1] r].
      cbn [fst snd] in Hfst, Hfail. injection Hfst as -> ->.
      cbn in Hlength, Hfail, Hchange.
      destruct r as [[] | e | why]; cbn.
      * eexists _, _, _, _, _, _, _, [_].
        split; [reflexivity | split; [right; reflexivity | split; [exact Hlength |]]].
        split; [discriminate | split; [intros Hne; elim Hne; reflexivity |]].
        intros Hdiff. repeat split. exists active. split; [reflexivity | tauto].
      * destruct Hfail as [-> ->]; [discriminate |].
        eexists _, _, _, _, _, _, _, [_].
        split; [reflexivity | split; [right; reflexivity | split; [reflexivity |]]].
        split; [intros; repeat split; reflexivity |].
        split; [intros; split; reflexivity | intros [Hdiff | Hdiff]; cbn in Hdiff; congruence].
      * destruct Hfail as [-> ->]; [discriminate |].
        eexists _, _, _, _, _, _, _, [_].
        split; [reflexivity | split; [right; reflexivity | split; [reflexivity |]]].
        split; [discriminate |].
        split; [intros; split; reflexivity | intros [Hdiff | Hdiff]; cbn in Hdiff; congruence].
  - (* toggle_serial_input *)
    unfold toggle_serial_input; cbn [_chip_state _user_operations].
    destruct st; [call_unchanged | |];
      (destruct (back log) as [last|]; [| call_unchanged];
       destruct (user_operation.eqb last _); [call_unchanged |];
       cbn; eexists _, _, _, _, _, _, _, [_];
       split; [reflexivity | split; [right; reflexivity | split; [reflexivity |]]];
       split; [discriminate |];
       split; [intros; split; reflexivity | intros [Hdiff | Hdiff]; cbn in Hdiff; congruence]).
  - (* toggle_clock *)
    unfold toggle_clock; cbn [_chip_state _operation].
    destruct st; [call_unchanged | |].
    + cbn [push_back set_bit_index _bit_index _serial_input _chip_enable _serial_output
           _chip_state _write_enabled _instruction_register _operation _data
           _user_operations serial_input_bit set_instruction_register].
      destruct (byte_shl _ _) as [bit|].
      2:{ cbn. eexists _, _, _, _, _, _, _, [_].
          split; [reflexivity | split; [right; reflexivity | split; [reflexivity |]]].
          split; [discriminate |].
          split; [intros; split; reflexivity | intros [Hdiff | Hdiff]; cbn in Hdiff; congruence]. }
      destruct (_ =? 0).
      2:{ cbn. eexists _, _, _, _, _, _, _, [_].
          split; [reflexivity | split; [right; reflexivity | split; [reflexivity |]]].
          split; [discriminate |].
          split; [intros; split; reflexivity | intros [Hdiff | Hdiff]; cbn in Hdiff; congruence]. }
      destruct (_operation_map g _) as [make|] eqn:Hmake.
      2:{ cbn. eexists _, _, _, _, _, _, _, [_].
          split; [reflexivity | split; [right; reflexivity | split; [reflexivity |]]].
          split; [intros; repeat split; reflexivity |].
          split; [intros; split; reflexivity | intros [Hdiff | Hdiff]; cbn in Hdiff; congruence]. }
      match goal with
      | |- context [make ?x] =>
          pose proof (operation_ctor_flash g _ make x Hmake) as Hflash;
          destruct (make x) as [f1 r]
      end.
      cbn [fst] in Hflash. subst f1.
      destruct r as [active | e | why]; cbn;
        (eexists _, _, _, _, _, _, _, [_];
         split; [reflexivity | split; [right; reflexivity | split; [reflexivity |]]];
         split; [try discriminate; intros; repeat split; reflexivity |];
         split; [intros; split; reflexivity | intros [Hdiff | Hdiff]; cbn in Hdiff; congruence]).
    + destruct o as [active|]; [| call_unchanged].
      pose proof (operation_toggle_clock_flash active
                    (push_back user_operation.toggle_clock
                       (flash_sim.mk ce si so chip_state.operation we bi ir (Some active) data log)))
        as Hflash.
      pose proof (operation_toggle_clock_throws active
                    (push_back user_operation.toggle_clock
                       (flash_sim.mk ce si so chip_state.operation we bi ir (Some active) data log)))
        as Hthrows.
      destruct (operation_toggle_clock _) as [[op' f1] r].
      cbn [fst snd] in Hflash, Hthrows. subst f1. cbn.
      eexists _, _, _, _, _, _, _, [_].
      split; [reflexivity | split; [right; reflexivity | split; [reflexivity |]]].
      split.
      * intros e ->. specialize (Hthrows e eq_refl). injection Hthrows as ->.
        repeat split; reflexivity.
      * split; [intros; split; reflexivity | intros [Hdiff | Hdiff]; cbn in Hdiff; congruence].
  - (* wait_for_write_complete *)
    unfold wait_for_write_complete. call_unchanged.
Qed.

(** ** Clocking data in *)

Lemma back_push_back {A : Type} (v : list A) (x : A) : back (v ++ [x]) = Some x.
Proof.
  induction v as [|y v IH]; [reflexivity|].
  cbn [app back]. destruct (v ++ [x]) eqn:Hv; [destruct v; discriminate | exact IH].
Qed.

Lemma set_serial_input_same (f : flash_sim.t) :
  set_serial_input (_serial_input f) f = f.
Proof. destruct f; reflexivity. Qed.

(** A serial-input toggle on a selected chip whose last logged operation
    is not a serial-input toggle. *)
Lemma toggle_serial_input_returns (f : flash_sim.t) (last : user_operation.t) :
  _chip_state f <> chip_state.deselected ->
  back (_user_operations f) = Some last ->
  last <> user_operation.toggle_serial_input ->
  toggle_serial_input f =
    (set_serial_input
       (if pin_state.eqb (_serial_input f) pin_state.high
        then pin_state.low else pin_state.high)
       (push_back user_operation.toggle_serial_input f),
     returns tt).
Proof.
  intros Hstate Hback Hlast. unfold toggle_serial_input. rewrite Hback.
  assert (Heqb : user_operation.eqb last user_operation.toggle_serial_input = false)
    by (destruct last; try reflexivity; congruence).
  rewrite Heqb. destruct (_chip_state f); [congruence | reflexivity | reflexivity].
Qed.

(** The first statement of the loop of [clock_in_data]: after it the
    serial-input pin shows the bit, and at most a serial-input toggle has
    been logged. *)
Lemma clock_in_data_sets_pin (g : Z) (bit_set : bool) (f : flash_sim.t) (last : user_operation.t) :
  _chip_state f <> chip_state.deselected ->
  back (_user_operations f) = Some last ->
  last <> user_operation.toggle_serial_input ->
  exists f1 : flash_sim.t,
    (if (bit_set && pin_state.eqb (flash.get_serial_input (interface := is_flash g) f)
                      pin_state.low)
        || (negb bit_set && pin_state.eqb (flash.get_serial_input (interface := is_flash g) f)
                              pin_state.high)
     then flash.toggle_serial_input (interface := is_flash g)
     else ret tt) f = (f1, returns tt) /\
    (f1 = set_serial_input (pin_of_bit bit_set) f \/
     f1 = set_serial_input (pin_of_bit bit_set)
            (push_back user_operation.toggle_serial_input f)).
Proof.
  intros Hstate Hback Hlast.
  cbn [flash.get_serial_input flash.toggle_serial_input is_flash].
  unfold get_serial_input, pin_of_bit.
  pose proof (toggle_serial_input_returns f last Hstate Hback Hlast) as Htoggle.
  destruct bit_set, (_serial_input f) eqn:Hpin; cbn [andb orb negb pin_state.eqb] in *;
    first [ rewrite Htoggle; eexists; split; [reflexivity | right; reflexivity]
          | eexists; split; [reflexivity |];
            left; rewrite <- Hpin; symmetry; apply set_serial_input_same ].
Qed.

Section shift_in.

Variable g : Z.

(** [sink acc k f]: the chip [f] has taken the bits of [acc] in and
    takes [k] more bits. *)
Variable sink : Z -> nat -> flash_sim.t -> Prop.

Hypothesis sink_selected :
  forall acc k f, sink acc k f -> _chip_state f <> chip_state.deselected.
Hypothesis sink_serial_input :
  forall acc k f p, sink acc k f -> sink acc k (set_serial_input p f).
Hypothesis sink_push_back :
  forall acc k f,
    sink acc k f -> sink acc k (push_back user_operation.toggle_serial_input f).
Hypothesis sink_toggle_clock :
  forall acc k f,
    sink acc (S k) f ->
    exists f' : flash_sim.t,
      toggle_clock g f = (f', returns tt) /\
      sink (2 * acc + serial_input_bit f) k f' /\
      _serial_input f' = _serial_input f /\
      back (_user_operations f') = Some user_operation.toggle_clock.

(** [clock_in_data] hands the bits [k + m - 1] down to [m] of [data] to
    the sink, the highest first, and goes on with the [m] low bits. *)
Lemma clock_in_data_shifts (data : Z) (m : nat) :
  forall (k : nat) (acc : Z) (f : flash_sim.t) (last : user_operation.t),
    sink acc k f ->
    back (_user_operations f) = Some last ->
    last <> user_operation.toggle_serial_input ->
    exists (f' : flash_sim.t) (last' : user_operation.t),
      clock_in_data g (k + m) data f = clock_in_data g m data f' /\
      sink (acc * 2 ^ Z.of_nat k + Z.shiftr data (Z.of_nat m) mod 2 ^ Z.of_nat k) 0 f' /\
      back (_user_operations f') = Some last' /\
      last' <> user_operation.toggle_serial_input /\
      _serial_input f' =
        match k with
        | O => _serial_input f
        | S _ => pin_of_bit (Z.testbit data (Z.of_nat m))
        end.
Proof.
  induction k as [|k IH]; intros acc f last Hsink Hback Hlast.
  - exists f, last. cbn [Nat.add]. change (2 ^ Z.of_nat 0) with 1.
    rewrite Z.mod_1_r, Z.mul_1_r, Z.add_0_r.
    repeat split; assumption.
  - unfold clock_in_data. cbn [Nat.add flash.clock_in_data].
    destruct (clock_in_data_sets_pin g (Z.testbit data (Z.of_nat (k + m))) f last
                (sink_selected _ _ _ Hsink) Hback Hlast) as (f1 & Hpin & Hf1).
    unfold bind at 1. rewrite Hpin.
    assert (Hsink1 : sink acc (S k) f1).
    { destruct Hf1 as [-> | ->]; auto. }
    assert (Hpin1 : _serial_input f1 = pin_of_bit (Z.testbit data (Z.of_nat (k + m)))).
    { destruct Hf1 as [-> | ->]; reflexivity. }
    assert (Hbit1 : serial_input_bit f1 = Z.b2z (Z.testbit data (Z.of_nat (k + m)))).
    { unfold serial_input_bit. rewrite Hpin1. unfold pin_of_bit.
      destruct (Z.testbit data (Z.of_nat (k + m))); reflexivity. }
    destruct (sink_toggle_clock _ _ _ Hsink1) as (f2 & Hclock & Hsink2 & Hpin2 & Hback2).
    unfold bind at 1. cbn [flash.toggle_clock is_flash]. rewrite Hclock.
    destruct (IH _ f2 user_operation.toggle_clock Hsink2 Hback2 ltac:(discriminate))
      as (f' & last' & Hrest & Hsink' & Hback' & Hlast' & Hpin').
    exists f', last'. split; [exact Hrest |]. split; [| split; [assumption | split; [assumption |]]].
    + rewrite Hbit1 in Hsink'.
      replace (acc * 2 ^ Z.of_nat (S k)
               + Z.shiftr data (Z.of_nat m) mod 2 ^ Z.of_nat (S k))
        with ((2 * acc + Z.b2z (Z.testbit data (Z.of_nat (k + m)))) * 2 ^ Z.of_nat k
              + Z.shiftr data (Z.of_nat m) mod 2 ^ Z.of_nat k); [exact Hsink' |].
      rewrite Nat2Z.inj_succ, Z.pow_succ_r by lia.
      rewrite (Z.mul_comm 2 (2 ^ Z.of_nat k)).
      rewrite Z.rem_mul_r by lia.
      replace (Z.b2z (Z.testbit data (Z.of_nat (k + m))))
        with ((Z.shiftr data (Z.of_nat m) / 2 ^ Z.of_nat k) mod 2).
      * ring.
      * rewrite <- Z.testbit_spec' by lia. rewrite Z.shiftr_spec by lia.
        f_equal. f_equal. lia.
    + rewrite Hpin'. destruct k as [|k']; [| reflexivity].
      rewrite Hpin2, Hpin1. reflexivity.
Qed.

End shift_in.

(** ** Bits *)

Lemma lor_next_bit (acc bit i : Z) :
  0 <= acc -> 0 <= i -> bit = 0 \/ bit = 1 ->
  Z.lor (acc * 2 ^ (i + 1)) (bit * 2 ^ i) = (2 * acc + bit) * 2 ^ i.
Proof.
  intros Hacc Hi Hbit.
  replace (acc * 2 ^ (i + 1)) with (Z.shiftl (2 * acc) i)
    by (rewrite Z.shiftl_mul_pow2, Z.pow_add_r, Z.pow_1_r by lia; ring).
  rewrite <- !Z.shiftl_mul_pow2, <- Z.shiftl_lor by lia.
  f_equal. destruct Hbit as [-> | ->].
  - rewrite Z.lor_0_r. ring.
  - destruct acc as [|p|p]; [reflexivity | reflexivity | lia].
Qed.

Lemma lor_lor_next_bit (start acc bit i : Z) :
  0 <= acc -> 0 <= i -> bit = 0 \/ bit = 1 ->
  Z.lor (Z.lor start (acc * 2 ^ (i + 1))) (bit * 2 ^ i) =
    Z.lor start ((2 * acc + bit) * 2 ^ i).
Proof.
  intros. rewrite <- Z.lor_assoc, lor_next_bit by assumption. reflexivity.
Qed.

Lemma serial_input_bit_range (f : flash_sim.t) :
  serial_input_bit f = 0 \/ serial_input_bit f = 1.
Proof. unfold serial_input_bit. destruct (_serial_input f); auto. Qed.

(** ** Clocking an opcode in *)

(** A clock toggle in the command state for one of the bits 7 to 1 of the
    instruction register. *)
Lemma toggle_clock_opcode_bit (g : Z) (f : flash_sim.t) (i : Z) :
  _chip_state f = chip_state.command ->
  _bit_index f = i + 1 ->
  1 <= i <= 7 ->
  toggle_clock g f =
    (set_instruction_register
       (Z.lor (_instruction_register f) (serial_input_bit f * 2 ^ i))
       (set_bit_index i (push_back user_operation.toggle_clock f)),
     returns tt).
Proof.
  destruct f as [ce si so st we bi ir o data log]; cbn; intros -> -> Hi.
  assert (Hcases : i = 1 \/ i = 2 \/ i = 3 \/ i = 4 \/ i = 5 \/ i = 6 \/ i = 7) by lia.
  unfold toggle_clock, serial_input_bit.
  destruct Hcases as [-> | [-> | [-> | [-> | [-> | [-> | ->]]]]]];
    destruct si; reflexivity.
Qed.

Lemma opcode_sink_clock (g : Z) (f0 : flash_sim.t) (acc : Z) (k : nat) (f : flash_sim.t) :
  opcode_sink f0 acc (S k) f ->
  exists f' : flash_sim.t,
    toggle_clock g f = (f', returns tt) /\
    opcode_sink f0 (2 * acc + serial_input_bit f) k f' /\
    _serial_input f' = _serial_input f /\
    back (_user_operations f') = Some user_operation.toggle_clock.
Proof.
  unfold opcode_sink.
  intros (Hstate & Hindex & Hk & Hacc & Hir & Hce & Hso & Hwe & Hop & Hdata).
  eexists. split.
  - apply (toggle_clock_opcode_bit g f (Z.of_nat k + 1)); [assumption | lia | lia].
  - cbn [set_instruction_register set_bit_index push_back _chip_state _bit_index
         _instruction_register _chip_enable _serial_output _write_enabled _operation
         _data _serial_input _user_operations].
    pose proof (serial_input_bit_range f) as Hbit.
    repeat split; try assumption; try lia.
    + rewrite Hir.
      replace (Z.of_nat (S k) + 1) with (Z.of_nat k + 1 + 1) by lia.
      apply lor_lor_next_bit; [assumption | lia | assumption].
    + apply back_push_back.
Qed.

Lemma bind_ret_tt {S : Type} (m : method S unit) (s : S) :
  bind m (fun _ => ret tt) s = m s.
Proof. unfold bind, ret. destruct (m s) as [s' [[] | e | why]]; reflexivity. Qed.

Lemma low_byte_bits (v : Z) :
  2 * (Z.shiftr v 1 mod 2 ^ 7) + Z.b2z (Z.testbit v 0) = v mod 256.
Proof.
  rewrite Z.bit0_mod, Z.shiftr_div_pow2 by lia.
  change 256 with (2 * 2 ^ 7). rewrite Z.rem_mul_r by lia.
  change (2 ^ 1) with 2. ring.
Qed.

(** The eight clock toggles of an opcode: the instruction register ends
    as what it was ORed with the low byte of [data], and the last toggle
    looks that byte up. [f8] is the chip just before the lookup. *)
Lemma clock_in_data_opcode (g data : Z) (f : flash_sim.t) (last : user_operation.t) :
  _chip_state f = chip_state.command ->
  _bit_index f = 8 ->
  back (_user_operations f) = Some last ->
  last <> user_operation.toggle_serial_input ->
  exists f8 : flash_sim.t,
    _chip_state f8 = chip_state.command /\
    _bit_index f8 = 0 /\
    _instruction_register f8 = Z.lor (_instruction_register f) (data mod 256) /\
    _chip_enable f8 = _chip_enable f /\
    _serial_output f8 = _serial_output f /\
    _write_enabled f8 = _write_enabled f /\
    _operation f8 = _operation f /\
    _data f8 = _data f /\
    back (_user_operations f8) = Some user_operation.toggle_clock /\
    clock_in_data g 8 data f =
      match _operation_map g (_instruction_register f8) with
      | None => (f8, throws failure.UnknownOpcode)
      | Some make =>
          match make f8 with
          | (f', returns op) =>
              (set_chip_state chip_state.operation (set_operation (Some op) f'), returns tt)
          | (f', throws e) => (f', throws e)
          | (f', undefined why) => (f', undefined why)
          end
      end.
Proof.
  intros Hstate Hindex Hback Hlast.
  assert (Hstart : opcode_sink f 0 7 f).
  { unfold opcode_sink. rewrite Z.mul_0_l, Z.lor_0_r.
    repeat split; try assumption; try reflexivity; lia. }
  destruct (clock_in_data_shifts g (opcode_sink f)
              ltac:(unfold opcode_sink; intros ? ? ? (-> & _); discriminate)
              ltac:(unfold opcode_sink; intros; assumption)
              ltac:(unfold opcode_sink; intros; assumption)
              (opcode_sink_clock g f) data 1 7 0 f last Hstart Hback Hlast)
    as (f7 & last7 & Hrest & Hsink & Hback7 & Hlast7 & _).
  change (7 + 1)%nat with 8%nat in Hrest. rewrite Hrest.
  unfold opcode_sink in Hsink.
  destruct Hsink as (Hstate7 & Hindex7 & _ & Hacc & Hir & Hce & Hso & Hwe & Hop & Hdata).
  unfold clock_in_data. cbn [flash.clock_in_data].
  destruct (clock_in_data_sets_pin g (Z.testbit data (Z.of_nat 0)) f7 last7
              ltac:(rewrite Hstate7; discriminate) Hback7 Hlast7) as (f7' & Hpin & Hf7').
  unfold bind at 1. rewrite Hpin.
  cbn [flash.toggle_clock is_flash]. rewrite bind_ret_tt.
  assert (Hframe : _chip_state f7' = chip_state.command /\ _bit_index f7' = 1 /\
                   _instruction_register f7' = _instruction_register f7 /\
                   _chip_enable f7' = _chip_enable f7 /\
                   _serial_output f7' = _serial_output f7 /\
                   _write_enabled f7' = _write_enabled f7 /\
                   _operation f7' = _operation f7 /\ _data f7' = _data f7 /\
                   serial_input_bit f7' = Z.b2z (Z.testbit data 0)).
  { change (Z.of_nat 0) with 0 in *.
    destruct Hf7' as [-> | ->];
      unfold serial_input_bit, pin_of_bit;
      cbn [set_serial_input push_back _chip_state _bit_index _instruction_register
           _chip_enable _serial_output _write_enabled _operation _data _serial_input];
      (repeat split; try assumption; destruct (Z.testbit data 0); reflexivity). }
  destruct Hframe as (Hs & Hi & Hir' & Hce' & Hso' & Hwe' & Hop' & Hdata' & Hbit).
  rewrite (toggle_clock_last_opcode_bit g f7' Hs Hi).
  exists (opcode_clocked_in f7').
  unfold opcode_clocked_in at 1 2 3 4 5 6 7 8 9.
  cbn [set_instruction_register set_bit_index push_back _chip_state _bit_index
       _instruction_register _chip_enable _serial_output _write_enabled _operation _data
       _user_operations].
  repeat split; try congruence; [| apply back_push_back].
  rewrite Hir', Hir, Hbit.
  set (acc := 0 * 2 ^ Z.of_nat 7 + Z.shiftr data (Z.of_nat 1) mod 2 ^ Z.of_nat 7) in *.
  change (Z.of_nat 0 + 1) with (0 + 1).
  transitivity (Z.lor (Z.lor (_instruction_register f) (acc * 2 ^ (0 + 1)))
                      (Z.b2z (Z.testbit data 0) * 2 ^ 0)).
  { change (2 ^ 0) with 1. rewrite Z.mul_1_r. reflexivity. }
  rewrite (lor_lor_next_bit _ acc (Z.b2z (Z.testbit data 0)) 0 Hacc ltac:(lia)
             ltac:(destruct (Z.testbit data 0); auto)).
  f_equal. change (2 ^ 0) with 1. rewrite Z.mul_1_r.
  rewrite <- low_byte_bits. subst acc.
  rewrite Z.mul_0_l, Z.add_0_l. reflexivity.
Qed.

(** ** The shape of the chip *)

Lemma assign_length {A : Type} (v : list A) (i : nat) (x : A) :
  List.length (assign v i x) = List.length v.
Proof.
  revert i. induction v as [|y v IH]; intros [|i]; cbn; try reflexivity.
  rewrite IH. reflexivity.
Qed.

Lemma operation_ctor_well_formed
    (g opcode : Z) (make : method flash_sim.t operation) (f : flash_sim.t) (op : operation) :
  _operation_map g opcode = Some make ->
  snd (make f) = returns op ->
  operation_well_formed op.
Proof.
  unfold _operation_map; split_cases; intros [= <-];
    unfold write_operation_ctor, read_operation_ctor, write_enable_operation_ctor,
      chip_erase_operation_ctor; split_cases; cbn [snd]; intros [= <-]; cbn;
    try exact I; repeat split; try lia; apply repeat_length.
Qed.

Lemma operation_ctor_defined
    (g opcode : Z) (make : method flash_sim.t operation) (f : flash_sim.t) (why : string) :
  _operation_map g opcode = Some make -> snd (make f) <> undefined why.
Proof.
  unfold _operation_map; split_cases; intros [= <-];
    unfold write_operation_ctor, read_operation_ctor, write_enable_operation_ctor,
      chip_erase_operation_ctor; split_cases; discriminate.
Qed.

(** The clock toggle of a well-formed operation is defined and leaves a
    well-formed operation. *)
Lemma operation_toggle_clock_well_formed (op : operation) (f : flash_sim.t) :
  operation_well_formed op ->
  operation_well_formed (fst (fst (operation_toggle_clock (op, f)))) /\
  forall why : string, snd (operation_toggle_clock (op, f)) <> undefined why.
Proof.
  destruct op as [[[address index]] | [[address index] buffer current bit] | | ];
    unfold operation_toggle_clock, operation_with_address_toggle_clock,
      read_operation_toggle_clock_impl, write_operation_toggle_clock_impl,
      write_enable_operation_toggle_clock, chip_erase_operation_toggle_clock, ret;
    cbn [operation_well_formed read_operation.base write_operation.base
         operation_with_address._bit_index operation_with_address._address
         write_operation._write_buffer write_operation._current_byte
         write_operation._bit_index read_operation.set_base write_operation.set_base].
  - intros Hindex. destruct (index =? 0) eqn:Hzero; cbn [negb].
    + cbn. split; [exact Hindex | discriminate].
    + apply Z.eqb_neq in Hzero.
      assert (Hmod : (index - 1) mod 256 = index - 1) by (apply Z.mod_small; lia).
      unfold uint32_shl. rewrite Hmod.
      destruct (32 <=? index - 1) eqn:Hshift; [apply Z.leb_le in Hshift; lia |].
      cbn. split; [lia | discriminate].
  - intros (Hindex & Hbuffer & Hcurrent & Hbit).
    destruct (index =? 0) eqn:Hzero; cbn [negb].
    + destruct (current =? List.length buffer)%nat eqn:Hfull.
      * cbn. split; [repeat split; assumption || lia | discriminate].
      * apply Nat.eqb_neq in Hfull.
        assert (Hmod : (bit - 1) mod 256 = bit - 1) by (apply Z.mod_small; lia).
        unfold write_operation_erased_check, operation_with_address_address, byte_shl.
        cbn [write_operation.base write_operation._bit_index write_operation._current_byte
             operation_with_address._bit_index operation_with_address._address].
        rewrite Hzero, Hmod. cbn [negb].
        destruct (32 <=? bit - 1) eqn:Hshift; [apply Z.leb_le in Hshift; lia |].
        destruct (bit =? 8);
          [destruct (nth_error _ _) as [b|]; [destruct (negb (b =? 255)) |] |];
          try (cbn; split; [repeat split; assumption || lia | discriminate]);
          (destruct (bit - 1 =? 0) eqn:Hlast; cbn;
           (split; [| discriminate]);
           rewrite assign_length; repeat split; try assumption; try lia;
           apply Z.eqb_neq in Hlast; lia).
    + apply Z.eqb_neq in Hzero.
      assert (Hmod : (index - 1) mod 256 = index - 1) by (apply Z.mod_small; lia).
      unfold uint32_shl. rewrite Hmod.
      destruct (32 <=? index - 1) eqn:Hshift; [apply Z.leb_le in Hshift; lia |].
      cbn. split; [repeat split; assumption || lia | discriminate].
  - intros _. cbn. split; [exact I | discriminate].
  - intros _. cbn. split; [exact I | discriminate].
Qed.

(** A call that is defined takes a well-formed chip to a well-formed
    chip. *)
Lemma perform_user_operation_well_formed
    (g : Z) (n : nat) (op : user_operation.t) (f : flash_sim.t) :
  well_formed n f ->
  (forall why : string, snd (perform_user_operation g op f) <> undefined why) ->
  well_formed n (fst (perform_user_operation g op f)).
Proof.
  destruct f as [ce si so st we bi ir o data log].
  unfold well_formed; cbn [_data _chip_enable _serial_output _chip_state
                           _instruction_register _operation _bit_index].
  intros (Hlength & Hce & Hso & Hstate).
  destruct op;
    unfold perform_user_operation, flash.perform_user_operation;
    cbn [is_flash flash.toggle_chip_enable flash.toggle_serial_input flash.toggle_clock
         flash.wait_for_write_complete].
  - (* toggle_chip_enable *)
    unfold toggle_chip_enable; cbn [_chip_state _operation].
    destruct st.
    + intros _. cbn. destruct Hstate as [_ ->]. repeat split; first [assumption | tauto | lia].
    + intros _. cbn. repeat split; first [assumption | tauto | lia].
    + destruct Hstate as (active & -> & Hactive).
      destruct (operation_toggle_chip_enable_effect active
                  (push_back user_operation.toggle_chip_enable
                     (flash_sim.mk ce si so chip_state.operation we bi ir (Some active) data log)))
        as (data' & we' & Hfst & Hlength' & _ & _).
      destruct (operation_toggle_chip_enable _) as [[op' f1] r].
      cbn [fst snd] in Hfst. injection Hfst as -> ->. cbn in Hlength'.
      destruct r as [[] | e | why]; cbn.
      * intros _. repeat split; congruence.
      * intros _. repeat split; try congruence. exists active. split; [reflexivity | assumption].
      * intros Hdefined. elim (Hdefined why). reflexivity.
  - (* toggle_serial_input *)
    unfold toggle_serial_input; cbn [_chip_state _user_operations].
    intros _.
    destruct st; [cbn; repeat split; first [assumption | tauto | lia] | |];
      (destruct (back log) as [last|]; [| cbn; repeat split; first [assumption | tauto | lia]];
       destruct (user_operation.eqb last _); cbn; repeat split; first [assumption | tauto | lia]).
  - (* toggle_clock *)
    unfold toggle_clock; cbn [_chip_state _operation].
    destruct st.
    + intros _. cbn. repeat split; first [assumption | tauto | lia].
    + destruct Hstate as [-> Hindex].
      cbn [push_back set_bit_index _bit_index _serial_input _chip_enable _serial_output
           _chip_state _write_enabled _instruction_register _operation _data
           _user_operations serial_input_bit set_instruction_register].
      unfold byte_shl.
      destruct (32 <=? (bi - 1) mod 256) eqn:Hshift.
      { intros Hdefined. elim (Hdefined "shift count"%string). reflexivity. }
      apply Z.leb_gt in Hshift.
      assert (Hpositive : 1 <= bi).
      { destruct (Z.eq_dec bi 0) as [-> | ]; [| lia].
        change ((0 - 1) mod 256) with 255 in Hshift. lia. }
      assert (Hmod : (bi - 1) mod 256 = bi - 1) by (apply Z.mod_small; lia).
      rewrite Hmod in *.
      destruct (bi - 1 =? 0) eqn:Hlast.
      2:{ intros _. cbn. repeat split; first [assumption | tauto | lia]. }
      destruct (_operation_map g _) as [make|] eqn:Hmake.
      2:{ intros _. cbn. repeat split; first [assumption | tauto | lia]. }
      match goal with
      | |- context [make ?x] =>
          pose proof (operation_ctor_flash g _ make x Hmake) as Hflash;
          pose proof (fun op => operation_ctor_well_formed g _ make x op Hmake) as Hctor;
          destruct (make x) as [f1 r]
      end.
      cbn [fst snd] in Hflash, Hctor. subst f1.
      destruct r as [active | e | why]; cbn.
      * intros _. repeat split; try assumption.
        exists active. split; [reflexivity | apply Hctor; reflexivity].
      * intros _. repeat split; first [assumption | tauto | lia].
      * intros Hdefined. elim (Hdefined why). reflexivity.
    + destruct Hstate as (active & -> & Hactive).
      pose proof (operation_toggle_clock_flash active
                    (push_back user_operation.toggle_clock
                       (flash_sim.mk ce si so chip_state.operation we bi ir (Some active) data log)))
        as Hflash.
      pose proof (operation_toggle_clock_well_formed active
                    (push_back user_operation.toggle_clock
                       (flash_sim.mk ce si so chip_state.operation we bi ir (Some active) data log))
                    Hactive) as [Hkept _].
      destruct (operation_toggle_clock _) as [[op' f1] r].
      cbn [fst snd] in Hflash, Hkept. subst f1. cbn.
      intros _. repeat split; try assumption.
      exists op'. split; [reflexivity | assumption].
  - (* wait_for_write_complete *)
    intros _. cbn. repeat split; first [assumption | tauto | lia].
Qed.

Lemma reachable_well_formed (g : Z) (n : nat) (f : flash_sim.t) :
  reachable g n f -> well_formed n f.
Proof.
  induction 1 as [|f f' op r _ IH Hcall Hdefined].
  - unfold well_formed, ctor; cbn. repeat split. apply repeat_length.
  - replace f' with (fst (perform_user_operation g op f)) by (rewrite Hcall; reflexivity).
    apply perform_user_operation_well_formed; [exact IH |].
    rewrite Hcall. exact Hdefined.
Qed.



(** ** Clocking an address in *)

(** A clock toggle for one of the 12 address bits of a read or a page
    write. *)
Lemma toggle_clock_address_bit
    (g : Z) (f : flash_sim.t) (op0 : operation) (address i : Z) :
  _chip_state f = chip_state.operation ->
  _operation f = Some (with_address op0 (operation_with_address.mk address (i + 1))) ->
  has_address op0 ->
  0 <= i <= 11 ->
  toggle_clock g f =
    (set_operation
       (Some (with_address op0
                (operation_with_address.mk
                   (Z.lor address (serial_input_bit f * 2 ^ i)) i)))
       (push_back user_operation.toggle_clock f),
     returns tt).
Proof.
  destruct f as [ce si so st we bi ir o data log]; cbn; intros -> -> Haddress Hi.
  assert (Hcases : i = 0 \/ i = 1 \/ i = 2 \/ i = 3 \/ i = 4 \/ i = 5 \/ i = 6 \/
                   i = 7 \/ i = 8 \/ i = 9 \/ i = 10 \/ i = 11) by lia.
  unfold toggle_clock, serial_input_bit.
  destruct op0 as [[base] | [base buffer current bit] | | ]; try contradiction;
    destruct Hcases as [-> | [-> | [-> | [-> | [-> | [-> | [-> | [-> | [-> | [-> | [-> | ->]]]]]]]]]]];
    destruct si; reflexivity.
Qed.

Lemma address_sink_clock
    (g : Z) (f0 : flash_sim.t) (op0 : operation) (start acc : Z) (k : nat) (f : flash_sim.t) :
  address_sink f0 op0 start acc (S k) f ->
  exists f' : flash_sim.t,
    toggle_clock g f = (f', returns tt) /\
    address_sink f0 op0 start (2 * acc + serial_input_bit f) k f' /\
    _serial_input f' = _serial_input f /\
    back (_user_operations f') = Some user_operation.toggle_clock.
Proof.
  unfold address_sink.
  intros (Hstate & Hk & Hacc & Haddress & Hop & Hce & Hso & Hwe & Hir & Hdata).
  eexists. split.
  - apply (toggle_clock_address_bit g f op0
             (Z.lor start (acc * 2 ^ Z.of_nat (S k))) (Z.of_nat k));
      [assumption | | assumption | lia].
    rewrite Hop. do 3 f_equal. lia.
  - cbn [set_operation push_back _chip_state _bit_index _instruction_register
         _chip_enable _serial_output _write_enabled _operation _data _serial_input
         _user_operations].
    pose proof (serial_input_bit_range f) as Hbit.
    repeat split; try assumption; try lia.
    + do 3 f_equal.
      replace (Z.of_nat (S k)) with (Z.of_nat k + 1) by lia.
      apply lor_lor_next_bit; [assumption | lia | assumption].
    + apply back_push_back.
Qed.

(** The twelve clock toggles of an address on a chip that has just
    taken the opcode of [op0], a read or a page write: the address ends as
    what the object held, ORed with the low 12 bits of [data]. *)
Lemma clock_in_data_address
    (g data : Z) (f : flash_sim.t) (op0 : operation) (start : Z) (last : user_operation.t) :
  _chip_state f = chip_state.operation ->
  has_address op0 ->
  _operation f = Some (with_address op0 (operation_with_address.mk start 12)) ->
  back (_user_operations f) = Some last ->
  last <> user_operation.toggle_serial_input ->
  exists (f' : flash_sim.t) (last' : user_operation.t),
    clock_in_data g 12 data f = (f', returns tt) /\
    _chip_state f' = chip_state.operation /\
    _operation f' =
      Some (with_address op0
              (operation_with_address.mk (Z.lor start (data mod 4096)) 0)) /\
    _chip_enable f' = _chip_enable f /\
    _serial_output f' = _serial_output f /\
    _write_enabled f' = _write_enabled f /\
    _instruction_register f' = _instruction_register f /\
    _data f' = _data f /\
    back (_user_operations f') = Some last' /\
    last' <> user_operation.toggle_serial_input.
Proof.
  intros Hstate Haddress Hop Hback Hlast.
  assert (Hstart : address_sink f op0 start 0 12 f).
  { unfold address_sink. rewrite Z.mul_0_l, Z.lor_0_r.
    repeat split; try assumption; try reflexivity; lia. }
  destruct (clock_in_data_shifts g (address_sink f op0 start)
              ltac:(unfold address_sink; intros ? ? ? (-> & _); discriminate)
              ltac:(unfold address_sink; intros; assumption)
              ltac:(unfold address_sink; intros; assumption)
              (address_sink_clock g f op0 start) data 0 12 0 f last Hstart Hback Hlast)
    as (f' & last' & Hrest & Hsink & Hback' & Hlast' & _).
  change (12 + 0)%nat with 12%nat in Hrest.
  exists f', last'. split; [exact Hrest |].
  unfold address_sink in Hsink.
  destruct Hsink as (Hstate' & _ & _ & _ & Hop' & Hce & Hso & Hwe & Hir & Hdata).
  repeat split; try assumption.
  rewrite Hop'. do 3 f_equal.
  change (Z.of_nat 0) with 0. change (Z.of_nat 12) with 12.
  rewrite Z.shiftr_0_r, Z.mul_0_l, Z.add_0_l.
  change (2 ^ 0) with 1. rewrite Z.mul_1_r. reflexivity.
Qed.

(** ** Clocking a data byte in *)

Lemma nth_assign {A : Type} (v : list A) (i : nat) (x d : A) :
  (i < List.length v)%nat -> nth i (assign v i x) d = x.
Proof.
  revert i. induction v as [|y v IH]; intros [|i] Hi; cbn in *; try lia; [reflexivity|].
  apply IH. lia.
Qed.

Lemma assign_assign {A : Type} (v : list A) (i : nat) (x y : A) :
  assign (assign v i x) i y = assign v i y.
Proof.
  revert i. induction v as [|z v IH]; intros [|i]; cbn; try reflexivity.
  rewrite IH. reflexivity.
Qed.

Lemma assign_nth {A : Type} (v : list A) (i : nat) (d : A) :
  assign v i (nth i v d) = v.
Proof.
  revert i. induction v as [|y v IH]; intros [|i]; cbn; try reflexivity.
  rewrite IH. reflexivity.
Qed.

Lemma byte_shl_serial_input_bit (f : flash_sim.t) (i : Z) :
  0 <= i <= 7 ->
  byte_shl (serial_input_bit f) i = Some (serial_input_bit f * 2 ^ i).
Proof.
  intros Hi. unfold byte_shl, serial_input_bit.
  assert (Hcases : i = 0 \/ i = 1 \/ i = 2 \/ i = 3 \/ i = 4 \/ i = 5 \/ i = 6 \/ i = 7)
    by lia.
  destruct Hcases as [-> | [-> | [-> | [-> | [-> | [-> | [-> | ->]]]]]]];
    destruct (_serial_input f); reflexivity.
Qed.

(** A clock toggle for bit [i] of the byte under the cursor of a page
    write; for bit 7 the byte of the memory array has to be erased. *)
Lemma toggle_clock_data_bit
    (g : Z) (f : flash_sim.t) (base : operation_with_address.t)
    (buffer : list Z) (current : nat) (i : Z) :
  _chip_state f = chip_state.operation ->
  _operation f = Some (write_operation (write_operation.mk base buffer current (i + 1))) ->
  operation_with_address._bit_index base = 0 ->
  (current < List.length buffer)%nat ->
  0 <= i <= 7 ->
  nth_error (_data f)
    (Z.to_nat (operation_with_address._address base + Z.of_nat current)) = Some 0xff ->
  toggle_clock g f =
    (set_operation
       (Some (write_operation
                (if i =? 0
                 then write_operation.mk base
                        (assign buffer current
                           (Z.lor (nth current buffer 0) (serial_input_bit f * 2 ^ i)))
                        (S current) 8
                 else write_operation.mk base
                        (assign buffer current
                           (Z.lor (nth current buffer 0) (serial_input_bit f * 2 ^ i)))
                        current i)))
       (push_back user_operation.toggle_clock f),
     returns tt).
Proof.
  destruct f as [ce si so st we bi ir o data log], base as [address index].
  cbn [_chip_state _operation _data operation_with_address._bit_index
       operation_with_address._address].
  intros -> -> -> Hcurrent Hi Herased.
  assert (Hnotfull : (current =? List.length buffer)%nat = false)
    by (apply Nat.eqb_neq; lia).
  unfold toggle_clock, operation_toggle_clock, operation_with_address_toggle_clock,
    write_operation_toggle_clock_impl, write_operation_erased_check,
    operation_with_address_address.
  cbn [_chip_state _operation push_back write_operation.base write_operation._write_buffer
       write_operation._current_byte write_operation._bit_index _data
       operation_with_address._bit_index operation_with_address._address Z.eqb negb].
  rewrite Hnotfull, Herased. change (negb (255 =? 255)) with false. cbv iota.
  assert (Hcheck :
            (if i + 1 =? 8 then @returns unit tt else returns tt) = returns tt)
    by (destruct (i + 1 =? 8); reflexivity).
  rewrite Hcheck.
  replace ((i + 1 - 1) mod 256) with i by (rewrite Z.mod_small; lia).
  rewrite (byte_shl_serial_input_bit _ i Hi).
  destruct (i =? 0); reflexivity.
Qed.

Lemma data_sink_clock
    (g : Z) (f0 : flash_sim.t) (base : operation_with_address.t) (buffer : list Z)
    (current : nat) (acc : Z) (k : nat) (f : flash_sim.t) :
  data_sink f0 base buffer current acc (S k) f ->
  exists f' : flash_sim.t,
    toggle_clock g f = (f', returns tt) /\
    data_sink f0 base buffer current (2 * acc + serial_input_bit f) k f' /\
    _serial_input f' = _serial_input f /\
    back (_user_operations f') = Some user_operation.toggle_clock.
Proof.
  unfold data_sink.
  intros (Hstate & Hk & Hacc & Hbase & Hcurrent & Herased & Hop & Hce & Hso & Hwe
          & Hir & Hdata).
  eexists. split.
  - apply (toggle_clock_data_bit g f base
             (assign buffer current
                (Z.lor (nth current buffer 0) (acc * 2 ^ Z.of_nat (S k))))
             current (Z.of_nat k));
      [assumption | | assumption | rewrite assign_length; assumption | lia
       | rewrite Hdata; assumption].
    rewrite Hop. do 3 f_equal. lia.
  - cbn [set_operation push_back _chip_state _bit_index _instruction_register
         _chip_enable _serial_output _write_enabled _operation _data _serial_input
         _user_operations].
    pose proof (serial_input_bit_range f) as Hbit.
    rewrite nth_assign, assign_assign by assumption.
    replace (Z.of_nat (S k)) with (Z.of_nat k + 1) by lia.
    rewrite lor_lor_next_bit by (assumption || lia).
    repeat split; try assumption; try lia.
    + destruct k as [|k'].
      * cbn [Z.of_nat Z.eqb]. change (2 ^ 0) with 1. rewrite Z.mul_1_r. reflexivity.
      * assert (Hnonzero : (Z.of_nat (S k') =? 0) = false) by (apply Z.eqb_neq; lia).
        rewrite Hnonzero. reflexivity.
    + apply back_push_back.
Qed.

(** The eight clock toggles of a data byte in a page write whose address
    is complete: the byte under the cursor is ORed with the low byte of
    [data] and the cursor moves on, provided the byte of the memory array
    at the address plus the cursor is erased. *)
Lemma clock_in_data_byte
    (g data : Z) (f : flash_sim.t) (base : operation_with_address.t) (buffer : list Z)
    (current : nat) (last : user_operation.t) :
  _chip_state f = chip_state.operation ->
  _operation f = Some (write_operation (write_operation.mk base buffer current 8)) ->
  operation_with_address._bit_index base = 0 ->
  (current < List.length buffer)%nat ->
  nth_error (_data f)
    (Z.to_nat (operation_with_address._address base + Z.of_nat current)) = Some 0xff ->
  back (_user_operations f) = Some last ->
  last <> user_operation.toggle_serial_input ->
  exists (f' : flash_sim.t) (last' : user_operation.t),
    clock_in_data g 8 data f = (f', returns tt) /\
    _chip_state f' = chip_state.operation /\
    _operation f' =
      Some (write_operation
              (write_operation.mk base
                 (assign buffer current (Z.lor (nth current buffer 0) (data mod 256)))
                 (S current) 8)) /\
    _chip_enable f' = _chip_enable f /\
    _serial_output f' = _serial_output f /\
    _write_enabled f' = _write_enabled f /\
    _instruction_register f' = _instruction_register f /\
    _data f' = _data f /\
    back (_user_operations f') = Some last' /\
    last' <> user_operation.toggle_serial_input.
Proof.
  intros Hstate Hop Hbase Hcurrent Herased Hback Hlast.
  assert (Hstart : data_sink f base buffer current 0 8 f).
  { unfold data_sink. rewrite Z.mul_0_l, Z.lor_0_r, assign_nth.
    repeat split; try assumption; try reflexivity; lia. }
  destruct (clock_in_data_shifts g (data_sink f base buffer current)
              ltac:(unfold data_sink; intros ? ? ? (-> & _); discriminate)
              ltac:(unfold data_sink; intros; assumption)
              ltac:(unfold data_sink; intros; assumption)
              (data_sink_clock g f base buffer current) data 0 8 0 f last
              Hstart Hback Hlast)
    as (f' & last' & Hrest & Hsink & Hback' & Hlast' & _).
  change (8 + 0)%nat with 8%nat in Hrest.
  exists f', last'. split; [exact Hrest |].
  unfold data_sink in Hsink.
  destruct Hsink as (Hstate' & _ & _ & _ & _ & _ & Hop' & Hce & Hso & Hwe & Hir & Hdata).
  repeat split; assumption.
Qed.

(** ** Properties of single calls *)

(** X1: a call of a user operation that throws has changed at most the
    operation log, [_bit_index] and the instruction register: the memory
    array, the write-enable flag, the chip state, the active operation
    and the three pins are what they were. *)
Theorem X1_throwing_call_keeps_memory_and_state
    (g : Z) (op : user_operation.t) (f : flash_sim.t) (e : exception) :
  snd (perform_user_operation g op f) = throws e ->
  get_data (fst (perform_user_operation g op f)) = get_data f /\
  _write_enabled (fst (perform_user_operation g op f)) = _write_enabled f /\
  get_chip_state (fst (perform_user_operation g op f)) = get_chip_state f /\
  _operation (fst (perform_user_operation g op f)) = _operation f /\
  get_chip_enable (fst (perform_user_operation g op f)) = get_chip_enable f /\
  get_serial_input (fst (perform_user_operation g op f)) = get_serial_input f /\
  get_serial_output (fst (perform_user_operation g op f)) = get_serial_output f.
Proof.
  intros Hthrows.
  destruct (call_effect g op f)
    as (si & st & we & bi & ir & o & data & suffix & Hfst & _ & _ & Hkept & _).
  destruct (Hkept e Hthrows) as (-> & -> & -> & -> & ->).
  rewrite Hfst. repeat split.
Qed.

Lemma X1_throwing_call_keeps_memory_and_state_witness :
  let f := fst ((toggle_chip_enable ;; clock_in_data 0 7 0x7f)%method (ctor 16)) in
  get_data (fst (perform_user_operation 0 user_operation.toggle_clock f)) = get_data f.
Proof.
  apply (X1_throwing_call_keeps_memory_and_state 0 user_operation.toggle_clock
           (fst ((toggle_chip_enable ;; clock_in_data 0 7 0x7f)%method (ctor 16)))
           failure.UnknownOpcode).
  vm_compute. reflexivity.
Defined.

(** X2: the operation log is append-only: whatever a call of a user
    operation does and however it ends, the log after it is the log
    before it, followed by nothing or by the token of that call. *)
Theorem X2_operation_log_is_append_only
    (g : Z) (op : user_operation.t) (f : flash_sim.t) :
  get_user_operations (fst (perform_user_operation g op f)) = get_user_operations f \/
  get_user_operations (fst (perform_user_operation g op f)) = get_user_operations f ++ [op].
Proof.
  destruct (call_effect g op f)
    as (si & st & we & bi & ir & o & data & suffix & Hfst & Hsuffix & _).
  rewrite Hfst. unfold get_user_operations; cbn [_user_operations].
  destruct Hsuffix as [-> | ->]; [left; apply app_nil_r | right; reflexivity].
Qed.

(** X3: the memory array and the write-enable flag change only when a
    chip-enable toggle completes a command: the call is
    [toggle_chip_enable], it returns, and it takes the chip from the
    operation state to the deselected state. The flag is set only by a
    write-enable operation, which leaves the memory array alone; it is
    cleared, and the memory array is changed, only by a chip erase or a
    page write. *)
Theorem X3_memory_changes_only_when_a_command_completes
    (g : Z) (op : user_operation.t) (f : flash_sim.t) :
  _write_enabled (fst (perform_user_operation g op f)) <> _write_enabled f \/
  get_data (fst (perform_user_operation g op f)) <> get_data f ->
  op = user_operation.toggle_chip_enable /\
  snd (perform_user_operation g op f) = returns tt /\
  get_chip_state f = chip_state.operation /\
  get_chip_state (fst (perform_user_operation g op f)) = chip_state.deselected /\
  exists active : operation,
    _operation f = Some active /\
    ((_write_enabled (fst (perform_user_operation g op f)) = true /\
      active = write_enable_operation /\
      get_data (fst (perform_user_operation g op f)) = get_data f) \/
     (_write_enabled (fst (perform_user_operation g op f)) = false /\
      (active = chip_erase_operation \/
       exists this : write_operation.t, active = write_operation this))).
Proof.
  destruct (call_effect g op f)
    as (si & st & we & bi & ir & o & data & suffix & Hfst & _ & _ & _ & Hother & Hchange).
  rewrite Hfst. unfold get_data, get_chip_state; cbn [_write_enabled _data _chip_state].
  intros Hdiff. split.
  - destruct op; try reflexivity;
      (destruct Hother as [-> ->]; [discriminate | destruct Hdiff; congruence]).
  - destruct (Hchange Hdiff) as (Hreturns & Hstate & -> & Hactive).
    repeat split; assumption.
Qed.

Lemma X3_memory_changes_only_when_a_command_completes_witness :
  let f := fst ((toggle_chip_enable ;; clock_in_data 0 8 0x06)%method (ctor 16)) in
  get_chip_state (fst (perform_user_operation 0 user_operation.toggle_chip_enable f))
    = chip_state.deselected.
Proof.
  apply (X3_memory_changes_only_when_a_command_completes 0
           user_operation.toggle_chip_enable
           (fst ((toggle_chip_enable ;; clock_in_data 0 8 0x06)%method (ctor 16)))).
  left. vm_compute. discriminate.
Defined.

(** ** Properties of every chip a caller can get *)

Lemma reachable_perform_user_operations (g : Z) (n : nat) (ops : list user_operation.t) :
  forall (f f' : flash_sim.t) (r : outcome unit),
    reachable g n f ->
    perform_user_operations g ops f = (f', r) ->
    (forall why, r <> undefined why) ->
    reachable g n f'.
Proof.
  induction ops as [|op ops IH]; intros f f' r Hf; cbn [perform_user_operations].
  - unfold ret. intros [= <- <-] _. exact Hf.
  - unfold bind at 1.
    destruct (perform_user_operation g op f) as [f1 r1] eqn:Hcall.
    destruct r1 as [[] | e | why].
    + intros Hrest Hdefined. apply (IH f1 f' r); [| assumption | assumption].
      apply (reachable_call g n f f1 op (returns tt)); [assumption | assumption | discriminate].
    + intros [= <- <-] _.
      apply (reachable_call g n f f1 op (throws e)); [assumption | assumption | discriminate].
    + intros [= <- <-] Hdefined. elim (Hdefined why). reflexivity.
Qed.

Lemma failed_opcode_reachable : reachable 0 16 failed_opcode.
Proof.
  apply (reachable_perform_user_operations 0 16 opcode_0xff_series (ctor 16) failed_opcode
           (throws failure.UnknownOpcode)).
  - apply reachable_ctor.
  - vm_compute. reflexivity.
  - discriminate.
Defined.

Lemma page_write_reachable :
  reachable 0 16 (fst (perform_user_operations 0 page_write_series (ctor 16))).
Proof.
  apply (reachable_perform_user_operations 0 16 page_write_series (ctor 16) _ (returns tt)).
  - apply reachable_ctor.
  - vm_compute. reflexivity.
  - discriminate.
Defined.

(** X4: in every state a new chip of [n] bytes gets into, the memory
    array still has [n] bytes, the chip-enable pin reads high, also while
    the chip is selected, and the serial-output pin reads low. *)
Theorem X4_capacity_and_pins_never_change (g : Z) (n : nat) (f : flash_sim.t) :
  reachable g n f ->
  List.length (get_data f) = n /\
  get_chip_enable f = pin_state.high /\
  get_serial_output f = pin_state.low.
Proof.
  intros Hreach. destruct (reachable_well_formed g n f Hreach) as (Hlength & Hce & Hso & _).
  repeat split; assumption.
Qed.

Lemma X4_capacity_and_pins_never_change_witness :
  List.length (get_data failed_opcode) = 16%nat /\
  get_chip_enable failed_opcode = pin_state.high /\
  get_serial_output failed_opcode = pin_state.low.
Proof.
  apply (X4_capacity_and_pins_never_change 0 16 failed_opcode failed_opcode_reachable).
Defined.

(** X5: in every state a new chip gets into, an operation object exists
    only in the operation state, and a deselected chip has a zero
    instruction register. *)
Theorem X5_operation_only_in_operation_state (g : Z) (n : nat) (f : flash_sim.t) :
  reachable g n f ->
  (_operation f <> None -> get_chip_state f = chip_state.operation) /\
  (get_chip_state f = chip_state.deselected -> _instruction_register f = 0).
Proof.
  intros Hreach. destruct (reachable_well_formed g n f Hreach) as (_ & _ & _ & Hstate).
  unfold get_chip_state. destruct (_chip_state f).
  - destruct Hstate as [Hir Hop]. split; [congruence | intros _; exact Hir].
  - destruct Hstate as [Hop _]. split; [congruence | discriminate].
  - split; [reflexivity | discriminate].
Qed.

Lemma X5_operation_only_in_operation_state_witness :
  (_operation failed_opcode <> None -> get_chip_state failed_opcode = chip_state.operation) /\
  (get_chip_state failed_opcode = chip_state.deselected ->
   _instruction_register failed_opcode = 0).
Proof.
  apply (X5_operation_only_in_operation_state 0 16 failed_opcode failed_opcode_reachable).
Defined.

(** X6: in every state a new chip gets into, an active page write has a
    buffer of 256 bytes, a cursor of at most 256, a bit index from 1 to 8
    and an address bit index from 0 to 12: the cursor never leaves the
    buffer and no shift count gets out of range. *)
Theorem X6_page_write_stays_inside_its_buffer
    (g : Z) (n : nat) (f : flash_sim.t) (this : write_operation.t) :
  reachable g n f ->
  _operation f = Some (write_operation this) ->
  List.length (write_operation._write_buffer this) = 256%nat /\
  (write_operation._current_byte this <= 256)%nat /\
  1 <= write_operation._bit_index this <= 8 /\
  0 <= operation_with_address._bit_index (write_operation.base this) <= 12.
Proof.
  intros Hreach Hop.
  destruct (reachable_well_formed g n f Hreach) as (_ & _ & _ & Hstate).
  destruct (_chip_state f).
  - destruct Hstate as [_ Hnone]. congruence.
  - destruct Hstate as [Hnone _]. congruence.
  - destruct Hstate as (active & Hactive & Hwf).
    rewrite Hop in Hactive. injection Hactive as <-.
    cbn in Hwf. tauto.
Qed.

Lemma X6_page_write_stays_inside_its_buffer_witness :
  List.length (repeat 0 256) = 256%nat /\ (0 <= 256)%nat /\ 1 <= 8 <= 8 /\ 0 <= 0 <= 12.
Proof.
  apply (X6_page_write_stays_inside_its_buffer 0 16
           (fst (perform_user_operations 0 page_write_series (ctor 16)))
           (write_operation.mk (operation_with_address.mk 16 0) (repeat 0 256) 0 8)
           page_write_reachable).
  vm_compute. reflexivity.
Defined.



(** ** Commands *)

(** A constructor of an operation looks at the write-enable flag only. *)
Lemma operation_ctor_reads_write_enabled
    (g opcode : Z) (make : method flash_sim.t operation) (f f' : flash_sim.t) :
  _operation_map g opcode = Some make ->
  _write_enabled f' = _write_enabled f ->
  snd (make f') = snd (make f).
Proof.
  unfold _operation_map; split_cases; intros [= <-];
    unfold write_operation_ctor, read_operation_ctor, write_enable_operation_ctor,
      chip_erase_operation_ctor; intros Hwe; cbn [snd]; try rewrite Hwe;
    split_cases; reflexivity.
Qed.

(** The chip-enable toggle that starts a command. *)
Lemma command_starts (f : flash_sim.t) :
  _chip_state f = chip_state.deselected ->
  exists f1 : flash_sim.t,
    toggle_chip_enable f = (f1, returns tt) /\
    _chip_state f1 = chip_state.command /\
    _bit_index f1 = 8 /\
    _instruction_register f1 = _instruction_register f /\
    _chip_enable f1 = _chip_enable f /\
    _serial_output f1 = _serial_output f /\
    _write_enabled f1 = _write_enabled f /\
    _operation f1 = _operation f /\
    _data f1 = _data f /\
    back (_user_operations f1) = Some user_operation.toggle_chip_enable.
Proof.
  intros Hstate. unfold toggle_chip_enable. rewrite Hstate.
  eexists. split; [reflexivity |]. cbn. repeat split. apply back_push_back.
Qed.

(** X8: on a chip that has just been selected, with a zero instruction
    register, [clock_in_data<8>] of a byte puts exactly that byte into
    the instruction register and has it looked up: an opcode outside the
    table throws the exception of the unknown opcode and leaves the chip
    in the command state, an opcode of the table starts its operation or
    throws what its constructor throws. The memory array and the
    write-enable flag are not touched. *)
Theorem X8_clock_in_data_delivers_the_opcode
    (g opcode : Z) (f : flash_sim.t) (last : user_operation.t) :
  get_chip_state f = chip_state.command ->
  _bit_index f = 8 ->
  _instruction_register f = 0 ->
  back (get_user_operations f) = Some last ->
  last <> user_operation.toggle_serial_input ->
  0 <= opcode < 256 ->
  _instruction_register (fst (clock_in_data g 8 opcode f)) = opcode /\
  get_data (fst (clock_in_data g 8 opcode f)) = get_data f /\
  _write_enabled (fst (clock_in_data g 8 opcode f)) = _write_enabled f /\
  match _operation_map g opcode with
  | None =>
      snd (clock_in_data g 8 opcode f) = throws failure.UnknownOpcode /\
      get_chip_state (fst (clock_in_data g 8 opcode f)) = chip_state.command
  | Some make =>
      match snd (make f) with
      | returns op =>
          snd (clock_in_data g 8 opcode f) = returns tt /\
          get_chip_state (fst (clock_in_data g 8 opcode f)) = chip_state.operation /\
          _operation (fst (clock_in_data g 8 opcode f)) = Some op
      | throws e =>
          snd (clock_in_data g 8 opcode f) = throws e /\
          get_chip_state (fst (clock_in_data g 8 opcode f)) = chip_state.command
      | undefined _ => False
      end
  end.
Proof.
  unfold get_chip_state, get_user_operations, get_data.
  intros Hstate Hindex Hzero Hback Hlast Hopcode.
  destruct (clock_in_data_opcode g opcode f last Hstate Hindex Hback Hlast)
    as (f8 & Hstate8 & Hindex8 & Hir8 & _ & _ & Hwe8 & _ & Hdata8 & _ & Hrun).
  rewrite Hzero, Z.lor_0_l, Z.mod_small in Hir8 by assumption.
  rewrite Hrun, Hir8.
  destruct (_operation_map g opcode) as [make|] eqn:Hmake.
  - pose proof (operation_ctor_flash g opcode make f8 Hmake) as Hflash.
    pose proof (operation_ctor_reads_write_enabled g opcode make f f8 Hmake Hwe8) as Hsame.
    pose proof (operation_ctor_defined g opcode make f) as Hdefined.
    destruct (make f8) as [f9 r9]. cbn [fst snd] in Hflash, Hsame. subst f9.
    rewrite <- Hsame.
    destruct r9 as [op | e | why]; cbn;
      repeat split; try assumption.
    apply (Hdefined why Hmake). congruence.
  - cbn. repeat split; assumption.
Qed.

Lemma X8_clock_in_data_delivers_the_opcode_witness :
  _instruction_register
    (fst (clock_in_data 0 8 0x03 (fst (toggle_chip_enable (ctor 16))))) = 0x03.
Proof.
  apply (X8_clock_in_data_delivers_the_opcode 0 0x03 (fst (toggle_chip_enable (ctor 16)))
           user_operation.toggle_chip_enable);
    try lia; vm_compute; first [reflexivity | discriminate].
Defined.

(** X9: the write-enable command (Scenario A) on any deselected chip
    with a zero instruction register. With the flag clear, all its calls
    return, the flag is set, the chip is deselected again and the memory
    array is what it was. With the flag already set, the last
    chip-enable toggle throws and leaves the chip in the operation state,
    the write-enable operation still active. *)
Theorem X9_write_enable_command (g : Z) (f : flash_sim.t) :
  get_chip_state f = chip_state.deselected ->
  _instruction_register f = 0 ->
  get_data (fst (scenario.A g f)) = get_data f /\
  _write_enabled (fst (scenario.A g f)) = true /\
  if _write_enabled f
  then
    snd (scenario.A g f) =
      throws (runtime_error "Cannot write enable when already write enabled.") /\
    get_chip_state (fst (scenario.A g f)) = chip_state.operation /\
    _operation (fst (scenario.A g f)) = Some write_enable_operation
  else
    snd (scenario.A g f) = returns tt /\
    get_chip_state (fst (scenario.A g f)) = chip_state.deselected /\
    _instruction_register (fst (scenario.A g f)) = 0 /\
    _operation (fst (scenario.A g f)) = None.
Proof.
  unfold get_chip_state, get_data. intros Hstate Hzero.
  destruct (command_starts f Hstate)
    as (f1 & Hstart & Hstate1 & Hindex1 & Hir1 & _ & _ & Hwe1 & _ & Hdata1 & Hback1).
  destruct (clock_in_data_opcode g 0x06 f1 user_operation.toggle_chip_enable
              Hstate1 Hindex1 Hback1 ltac:(discriminate))
    as (f8 & Hstate8 & Hindex8 & Hir8 & _ & _ & Hwe8 & _ & Hdata8 & _ & Hrun).
  rewrite Hir1, Hzero in Hir8. change (Z.lor 0 (6 mod 256)) with 6 in Hir8.
  rewrite Hir8 in Hrun.
  change (_operation_map g 6) with (Some write_enable_operation_ctor) in Hrun.
  unfold write_enable_operation_ctor in Hrun.
  assert (Hall : scenario.A g f =
                 toggle_chip_enable
                   (set_chip_state chip_state.operation
                      (set_operation (Some write_enable_operation) f8))).
  { unfold scenario.A, bind. rewrite Hstart, Hrun. reflexivity. }
  rewrite Hall. clear Hall Hrun Hstart.
  rewrite <- Hdata1, <- Hdata8, <- Hwe1, <- Hwe8.
  destruct f8 as [ce si so st we bi ir o data log].
  cbn [_chip_state _bit_index _write_enabled _data] in *. subst st bi.
  unfold toggle_chip_enable; cbn. destruct we; cbn; repeat split.
Qed.

Lemma X9_write_enable_command_witness :
  _write_enabled (fst (scenario.A 0 (ctor 16))) = true.
Proof.
  refine (proj1 (proj2 (X9_write_enable_command 0 (ctor 16) _ _)));
    vm_compute; reflexivity.
Defined.

Lemma map_const_repeat {A B : Type} (b : B) (v : list A) :
  map (fun _ => b) v = repeat b (List.length v).
Proof.
  induction v as [|a v IH]; [reflexivity | cbn; rewrite IH; reflexivity].
Qed.

(** X10: the chip-erase command (Scenario B) on any deselected chip with
    a zero instruction register. With the write-enable flag set, all its
    calls return, every byte of the memory array is 0xFF, the array has
    kept its length, the flag is clear and the chip is deselected. With
    the flag clear, the eighth clock toggle of the opcode throws and
    leaves the chip in the command state, the memory array as it was. *)
Theorem X10_chip_erase_command (g : Z) (f : flash_sim.t) :
  get_chip_state f = chip_state.deselected ->
  _instruction_register f = 0 ->
  _write_enabled (fst (scenario.B g f)) = false /\
  if _write_enabled f
  then
    snd (scenario.B g f) = returns tt /\
    get_data (fst (scenario.B g f)) = repeat 0xff (List.length (get_data f)) /\
    get_chip_state (fst (scenario.B g f)) = chip_state.deselected /\
    _instruction_register (fst (scenario.B g f)) = 0 /\
    _operation (fst (scenario.B g f)) = None
  else
    snd (scenario.B g f) = throws failure.WriteEnableRequired /\
    get_data (fst (scenario.B g f)) = get_data f /\
    get_chip_state (fst (scenario.B g f)) = chip_state.command /\
    _bit_index (fst (scenario.B g f)) = 0.
Proof.
  unfold get_chip_state, get_data. intros Hstate Hzero.
  destruct (command_starts f Hstate)
    as (f1 & Hstart & Hstate1 & Hindex1 & Hir1 & _ & _ & Hwe1 & _ & Hdata1 & Hback1).
  destruct (clock_in_data_opcode g 0x60 f1 user_operation.toggle_chip_enable
              Hstate1 Hindex1 Hback1 ltac:(discriminate))
    as (f8 & Hstate8 & Hindex8 & Hir8 & _ & _ & Hwe8 & _ & Hdata8 & _ & Hrun).
  rewrite Hir1, Hzero in Hir8. change (Z.lor 0 (96 mod 256)) with 96 in Hir8.
  rewrite Hir8 in Hrun.
  change (_operation_map g 96) with (Some chip_erase_operation_ctor) in Hrun.
  unfold chip_erase_operation_ctor in Hrun.
  assert (Hall : scenario.B g f =
                 if negb (_write_enabled f8)
                 then (f8, throws failure.WriteEnableRequired)
                 else toggle_chip_enable
                        (set_chip_state chip_state.operation
                           (set_operation (Some chip_erase_operation) f8))).
  { unfold scenario.B, bind. rewrite Hstart, Hrun.
    destruct (_write_enabled f8); reflexivity. }
  rewrite Hall. clear Hall Hrun Hstart.
  rewrite <- Hdata1, <- Hdata8, <- Hwe1, <- Hwe8.
  destruct f8 as [ce si so st we bi ir o data log].
  cbn [_chip_state _bit_index _write_enabled _data] in *. subst st bi.
  unfold toggle_chip_enable. destruct we; cbn -[repeat List.length].
  - rewrite map_const_repeat. repeat split.
  - repeat split.
Qed.

Lemma X10_chip_erase_command_witness :
  _write_enabled (fst (scenario.B 0 (fst (scenario.A 0 (ctor 16))))) = false.
Proof.
  refine (proj1 (X10_chip_erase_command 0 (fst (scenario.A 0 (ctor 16))) _ _));
    vm_compute; reflexivity.
Defined.

(** ** Chips that are stuck *)

(** X11: a chip in the command state whose eight opcode bits have been
    taken ([_bit_index] 0), as after an unknown opcode or an opcode
    refused for the missing write-enable, never leaves that state: every
    chip-enable toggle throws, and whatever calls follow without running
    into undefined behaviour, the chip is in the command state with the
    same instruction register, memory array and write-enable flag. *)
Theorem X11_failed_opcode_leaves_the_chip_stuck (g : Z) (f0 f : flash_sim.t) :
  get_chip_state f0 = chip_state.command ->
  _bit_index f0 = 0 ->
  follows g f0 f ->
  get_chip_state f = chip_state.command /\
  _bit_index f = 0 /\
  _instruction_register f = _instruction_register f0 /\
  get_data f = get_data f0 /\
  _write_enabled f = _write_enabled f0 /\
  snd (toggle_chip_enable f) = throws failure.InvalidTransition_chip_enable_in_command.
Proof.
  unfold get_chip_state, get_data. intros Hstate0 Hindex0 Hfollows.
  assert (Hkept : _chip_state f = chip_state.command /\ _bit_index f = 0 /\
                  _instruction_register f = _instruction_register f0 /\
                  _data f = _data f0 /\ _write_enabled f = _write_enabled f0).
  { induction Hfollows as [|f f' op r _ IH Hcall Hdefined]; [repeat split; assumption |].
    destruct IH as (Hstate & Hindex & Hir & Hdata & Hwe).
    rewrite <- Hir, <- Hdata, <- Hwe. clear Hir Hdata Hwe.
    destruct f as [ce si so st we bi ir o data log].
    cbn [_chip_state _bit_index] in Hstate, Hindex. subst st bi.
    destruct op;
      unfold perform_user_operation, flash.perform_user_operation in Hcall;
      cbn [is_flash flash.toggle_chip_enable flash.toggle_serial_input flash.toggle_clock
           flash.wait_for_write_complete] in Hcall.
    - injection Hcall as <- _. repeat split.
    - unfold toggle_serial_input in Hcall; cbn [_chip_state _user_operations] in Hcall.
      destruct (back log) as [last|]; [| injection Hcall as <- _; repeat split].
      destruct (user_operation.eqb last _); injection Hcall as <- _; repeat split.
    - unfold toggle_clock in Hcall; cbn in Hcall.
      injection Hcall as _ <-. elim (Hdefined "shift count"%string). reflexivity.
    - injection Hcall as <- _. repeat split. }
  destruct Hkept as (Hstate & Hindex & Hir & Hdata & Hwe).
  repeat split; try assumption.
  unfold toggle_chip_enable. rewrite Hstate. reflexivity.
Qed.

Lemma X11_failed_opcode_leaves_the_chip_stuck_witness :
  get_chip_state (fst (toggle_serial_input failed_opcode)) = chip_state.command.
Proof.
  refine (proj1 (X11_failed_opcode_leaves_the_chip_stuck 0 failed_opcode
                   (fst (toggle_serial_input failed_opcode)) _ _ _)).
  - vm_compute. reflexivity.
  - vm_compute. reflexivity.
  - apply (follows_call 0 failed_opcode failed_opcode _
             user_operation.toggle_serial_input (returns tt)).
    + apply follows_start.
    + vm_compute. reflexivity.
    + discriminate.
Defined.

(** X12: a chip whose write-enable operation is active while the
    write-enable flag is already set never completes the command: every
    chip-enable toggle and every clock toggle throws, and whatever calls
    follow, the chip is in the operation state with that operation, the
    flag set and the memory array unchanged. *)
Theorem X12_second_write_enable_leaves_the_chip_stuck (g : Z) (f0 f : flash_sim.t) :
  get_chip_state f0 = chip_state.operation ->
  _operation f0 = Some write_enable_operation ->
  _write_enabled f0 = true ->
  follows g f0 f ->
  get_chip_state f = chip_state.operation /\
  _operation f = Some write_enable_operation /\
  _write_enabled f = true /\
  get_data f = get_data f0 /\
  snd (toggle_chip_enable f) =
    throws (runtime_error "Cannot write enable when already write enabled.") /\
  snd (toggle_clock g f) =
    throws (runtime_error "Write enable does not require clock toggling.").
Proof.
  unfold get_chip_state, get_data. intros Hstate0 Hop0 Hwe0 Hfollows.
  assert (Hkept : _chip_state f = chip_state.operation /\
                  _operation f = Some write_enable_operation /\
                  _write_enabled f = true /\ _data f = _data f0).
  { induction Hfollows as [|f f' op r _ IH Hcall Hdefined]; [repeat split; assumption |].
    destruct IH as (Hstate & Hop & Hwe & Hdata).
    rewrite <- Hdata. clear Hdata.
    destruct f as [ce si so st we bi ir o data log].
    cbn [_chip_state _operation _write_enabled] in Hstate, Hop, Hwe. subst st o we.
    destruct op;
      unfold perform_user_operation, flash.perform_user_operation in Hcall;
      cbn [is_flash flash.toggle_chip_enable flash.toggle_serial_input flash.toggle_clock
           flash.wait_for_write_complete] in Hcall.
    - unfold toggle_chip_enable in Hcall; cbn in Hcall.
      injection Hcall as <- _. repeat split.
    - unfold toggle_serial_input in Hcall; cbn [_chip_state _user_operations] in Hcall.
      destruct (back log) as [last|]; [| injection Hcall as <- _; repeat split].
      destruct (user_operation.eqb last _); injection Hcall as <- _; repeat split.
    - unfold toggle_clock in Hcall; cbn in Hcall.
      injection Hcall as <- _. repeat split.
    - injection Hcall as <- _. repeat split. }
  destruct Hkept as (Hstate & Hop & Hwe & Hdata).
  destruct f as [ce si so st we bi ir o data log].
  cbn [_chip_state _operation _write_enabled _data] in *. subst st o we.
  unfold toggle_chip_enable, toggle_clock; cbn. repeat split. assumption.
Qed.

Lemma X12_second_write_enable_leaves_the_chip_stuck_witness :
  get_chip_state write_enabled_twice = chip_state.operation.
Proof.
  refine (proj1 (X12_second_write_enable_leaves_the_chip_stuck 0 write_enabled_twice
                   write_enabled_twice _ _ _ (follows_start 0 write_enabled_twice)));
    vm_compute; reflexivity.
Defined.

(** ** The serial input *)

(** X13: a serial-input toggle that returns flips the serial-input pin,
    logs its token and changes nothing else; the serial-input toggle
    right after it throws and changes nothing at all. *)
Theorem X13_serial_input_toggles_must_alternate (f : flash_sim.t) :
  snd (toggle_serial_input f) = returns tt ->
  fst (toggle_serial_input f) =
    set_serial_input
      (match get_serial_input f with
       | pin_state.high => pin_state.low
       | pin_state.low => pin_state.high
       end)
      (push_back user_operation.toggle_serial_input f) /\
  toggle_serial_input (fst (toggle_serial_input f)) =
    (fst (toggle_serial_input f),
     throws (runtime_error "Cannot toggle serial input twice in a row.")).
Proof.
  unfold get_serial_input. intros Hreturns.
  assert (Hcall : toggle_serial_input f =
                    (set_serial_input
                       (match _serial_input f with
                        | pin_state.high => pin_state.low
                        | pin_state.low => pin_state.high
                        end)
                       (push_back user_operation.toggle_serial_input f),
                     returns tt) /\
                  _chip_state f <> chip_state.deselected).
  { revert Hreturns. unfold toggle_serial_input.
    destruct (_chip_state f); [discriminate | |];
      (destruct (back (_user_operations f)) as [last|]; [| discriminate];
       destruct (user_operation.eqb last _); [discriminate |];
       intros _; cbn [push_back _serial_input]; split; [| discriminate];
       destruct (_serial_input f); reflexivity). }
  destruct Hcall as [Hcall Hselected]. rewrite Hcall. cbn [fst].
  split; [reflexivity |].
  unfold toggle_serial_input.
  cbn [_chip_state _user_operations set_serial_input push_back].
  rewrite back_push_back. cbn [user_operation.eqb].
  destruct (_chip_state f); [congruence | reflexivity | reflexivity].
Qed.

Lemma X13_serial_input_toggles_must_alternate_witness :
  toggle_serial_input (fst (toggle_serial_input (fst (toggle_chip_enable (ctor 16))))) =
    (fst (toggle_serial_input (fst (toggle_chip_enable (ctor 16)))),
     throws (runtime_error "Cannot toggle serial input twice in a row.")).
Proof.
  refine (proj2 (X13_serial_input_toggles_must_alternate
                   (fst (toggle_chip_enable (ctor 16))) _)).
  vm_compute. reflexivity.
Defined.

(** ** Address and data *)

(** X14: the opcode and the 12 address bits of a read (the start of
    Scenario D) on any deselected chip with a zero instruction register:
    the calls return and leave a read operation whose address is the
    value the uninitialised member held, ORed with the low 12 bits of the
    address clocked in, and whose address bit index is 0; the memory
    array and the write-enable flag are not touched. *)
Theorem X14_read_command_takes_twelve_address_bits (g address : Z) (f : flash_sim.t) :
  get_chip_state f = chip_state.deselected ->
  _instruction_register f = 0 ->
  snd ((toggle_chip_enable ;; clock_in_data g 8 0x03 ;;
        clock_in_data g 12 address)%method f) = returns tt /\
  get_chip_state (fst ((toggle_chip_enable ;; clock_in_data g 8 0x03 ;;
                        clock_in_data g 12 address)%method f)) = chip_state.operation /\
  _operation (fst ((toggle_chip_enable ;; clock_in_data g 8 0x03 ;;
                    clock_in_data g 12 address)%method f)) =
    Some (read_operation
            (read_operation.mk
               (operation_with_address.mk
                  (Z.lor (g mod 2 ^ 32) (address mod 4096)) 0))) /\
  get_data (fst ((toggle_chip_enable ;; clock_in_data g 8 0x03 ;;
                  clock_in_data g 12 address)%method f)) = get_data f /\
  _write_enabled (fst ((toggle_chip_enable ;; clock_in_data g 8 0x03 ;;
                        clock_in_data g 12 address)%method f)) = _write_enabled f.
Proof.
  unfold get_chip_state, get_data. intros Hstate Hzero.
  destruct (command_starts f Hstate)
    as (f1 & Hstart & Hstate1 & Hindex1 & Hir1 & _ & _ & Hwe1 & _ & Hdata1 & Hback1).
  destruct (clock_in_data_opcode g 0x03 f1 user_operation.toggle_chip_enable
              Hstate1 Hindex1 Hback1 ltac:(discriminate))
    as (f8 & Hstate8 & Hindex8 & Hir8 & _ & _ & Hwe8 & _ & Hdata8 & Hback8 & Hrun).
  rewrite Hir1, Hzero in Hir8. change (Z.lor 0 (3 mod 256)) with 3 in Hir8.
  rewrite Hir8 in Hrun.
  change (_operation_map g 3) with (Some (read_operation_ctor g)) in Hrun.
  unfold read_operation_ctor, operation_with_address_ctor in Hrun.
  set (op0 := read_operation
                (read_operation.mk (operation_with_address.mk (g mod 2 ^ 32) 12))) in *.
  set (f9 := set_chip_state chip_state.operation (set_operation (Some op0) f8)) in *.
  destruct (clock_in_data_address g address f9 op0 (g mod 2 ^ 32)
              user_operation.toggle_clock
              eq_refl I eq_refl Hback8 ltac:(discriminate))
    as (f' & last' & Haddress & Hstate' & Hop' & _ & _ & Hwe' & _ & Hdata' & _).
  assert (Hall : (toggle_chip_enable ;; clock_in_data g 8 3 ;;
                  clock_in_data g 12 address)%method f = (f', returns tt)).
  { unfold bind. rewrite Hstart, Hrun. exact Haddress. }
  rewrite Hall. cbn [fst snd].
  repeat split; try assumption.
  - rewrite Hdata'. subst f9. cbn [_data set_chip_state set_operation]. congruence.
  - rewrite Hwe'. subst f9. cbn [_write_enabled set_chip_state set_operation]. congruence.
Qed.

Lemma X14_read_command_takes_twelve_address_bits_witness :
  _operation (fst ((toggle_chip_enable ;; clock_in_data 0 8 0x03 ;;
                    clock_in_data 0 12 0x010)%method (ctor 16))) =
    Some (read_operation
            (read_operation.mk
               (operation_with_address.mk (Z.lor (0 mod 2 ^ 32) (0x010 mod 4096)) 0))).
Proof.
  refine (proj1 (proj2 (proj2 (X14_read_command_takes_twelve_address_bits 0 0x010
                                 (ctor 16) _ _))));
    vm_compute; reflexivity.
Defined.

(** X15: [clock_in_data<8>] of a data byte in a page write whose address
    is complete and whose bit index is 8, called when the last operation
    of the log is not a serial-input toggle (after one, the serial-input
    toggle of the first bit may throw): when the byte of the memory
    array at the address plus the cursor is 0xFF and the cursor is inside
    the buffer, the calls return, the buffer byte under the cursor is
    ORed with the low byte of the data, the cursor moves to the next
    byte, and the memory array and the write-enable flag are not
    touched. *)
Theorem X15_clock_in_data_fills_the_write_buffer
    (g data : Z) (f : flash_sim.t) (base : operation_with_address.t) (buffer : list Z)
    (current : nat) (last : user_operation.t) :
  get_chip_state f = chip_state.operation ->
  _operation f = Some (write_operation (write_operation.mk base buffer current 8)) ->
  operation_with_address._bit_index base = 0 ->
  (current < List.length buffer)%nat ->
  nth_error (get_data f)
    (Z.to_nat (operation_with_address._address base + Z.of_nat current)) = Some 0xff ->
  back (get_user_operations f) = Some last ->
  last <> user_operation.toggle_serial_input ->
  snd (clock_in_data g 8 data f) = returns tt /\
  _operation (fst (clock_in_data g 8 data f)) =
    Some (write_operation
            (write_operation.mk base
               (assign buffer current (Z.lor (nth current buffer 0) (data mod 256)))
               (S current) 8)) /\
  get_chip_state (fst (clock_in_data g 8 data f)) = chip_state.operation /\
  get_data (fst (clock_in_data g 8 data f)) = get_data f /\
  _write_enabled (fst (clock_in_data g 8 data f)) = _write_enabled f.
Proof.
  unfold get_chip_state, get_data, get_user_operations.
  intros Hstate Hop Hbase Hcurrent Herased Hback Hlast.
  destruct (clock_in_data_byte g data f base buffer current last
              Hstate Hop Hbase Hcurrent Herased Hback Hlast)
    as (f' & last' & Hrun & Hstate' & Hop' & _ & _ & Hwe' & _ & Hdata' & _).
  rewrite Hrun. cbn [fst snd]. repeat split; assumption.
Qed.

Lemma X15_clock_in_data_fills_the_write_buffer_witness :
  let f := fst ((scenario.A 0 ;; scenario.B 0 ;; scenario.A 0 ;; toggle_chip_enable ;;
                 clock_in_data 0 8 0x02 ;; clock_in_data 0 12 0x003)%method (ctor 16)) in
  snd (clock_in_data 0 8 0xab f) = returns tt.
Proof.
  refine (proj1 (X15_clock_in_data_fills_the_write_buffer 0 0xab
                   (fst ((scenario.A 0 ;; scenario.B 0 ;; scenario.A 0 ;;
                          toggle_chip_enable ;; clock_in_data 0 8 0x02 ;;
                          clock_in_data 0 12 0x003)%method (ctor 16)))
                   (operation_with_address.mk 3 0) (repeat 0 256) 0
                   user_operation.toggle_clock _ _ _ _ _ _ _));
    try (vm_compute; reflexivity).
  - vm_compute. lia.
  - discriminate.
Defined.

(** X16: the page-write command of Scenario C, with a 12-bit address,
    on any deselected chip of at least 512 bytes with a zero instruction
    register, the write-enable flag set and an erased byte at the address
    of the operation (the value of the uninitialised member ORed with the
    12 bits): all calls return, the chip is deselected and the flag is
    clear; the bytes 256 to 511 of the memory array are the data byte
    followed by 255 zero bytes, whatever the address, and the other bytes
    are unchanged. *)
Theorem X16_page_write_command
    (g address data : Z) (f : flash_sim.t) :
  get_chip_state f = chip_state.deselected ->
  _instruction_register f = 0 ->
  _write_enabled f = true ->
  (512 <= List.length (get_data f))%nat ->
  nth_error (get_data f) (Z.to_nat (Z.lor (g mod 2 ^ 32) (address mod 4096))) = Some 0xff ->
  snd ((toggle_chip_enable ;; clock_in_data g 8 0x02 ;; clock_in_data g 12 address ;;
        clock_in_data g 8 data ;; toggle_chip_enable)%method f) = returns tt /\
  get_data (fst ((toggle_chip_enable ;; clock_in_data g 8 0x02 ;;
                  clock_in_data g 12 address ;; clock_in_data g 8 data ;;
                  toggle_chip_enable)%method f)) =
    firstn 256 (get_data f) ++ (data mod 256 :: repeat 0 255) ++ skipn 512 (get_data f) /\
  _write_enabled (fst ((toggle_chip_enable ;; clock_in_data g 8 0x02 ;;
                        clock_in_data g 12 address ;; clock_in_data g 8 data ;;
                        toggle_chip_enable)%method f)) = false /\
  get_chip_state (fst ((toggle_chip_enable ;; clock_in_data g 8 0x02 ;;
                        clock_in_data g 12 address ;; clock_in_data g 8 data ;;
                        toggle_chip_enable)%method f)) = chip_state.deselected.
Proof.
  unfold get_chip_state, get_data. intros Hstate Hzero Hwe Hlength Herased.
  destruct (command_starts f Hstate)
    as (f1 & Hstart & Hstate1 & Hindex1 & Hir1 & _ & _ & Hwe1 & _ & Hdata1 & Hback1).
  destruct (clock_in_data_opcode g 0x02 f1 user_operation.toggle_chip_enable
              Hstate1 Hindex1 Hback1 ltac:(discriminate))
    as (f8 & Hstate8 & Hindex8 & Hir8 & _ & _ & Hwe8 & _ & Hdata8 & Hback8 & Hrun).
  rewrite Hir1, Hzero in Hir8. change (Z.lor 0 (2 mod 256)) with 2 in Hir8.
  rewrite Hir8 in Hrun.
  change (_operation_map g 2) with (Some (write_operation_ctor g)) in Hrun.
  unfold write_operation_ctor, operation_with_address_ctor in Hrun.
  rewrite Hwe8, Hwe1, Hwe in Hrun. cbn [negb] in Hrun.
  set (op0 := write_operation
                (write_operation.mk (operation_with_address.mk (g mod 2 ^ 32) 12)
                   (repeat 0 256) 0 8)) in *.
  set (f9 := set_chip_state chip_state.operation (set_operation (Some op0) f8)) in *.
  destruct (clock_in_data_address g address f9 op0 (g mod 2 ^ 32)
              user_operation.toggle_clock
              eq_refl I eq_refl Hback8 ltac:(discriminate))
    as (fa & lasta & Haddress & Hstatea & Hopa & _ & _ & Hwea & _ & Hdataa & Hbacka & Hlasta).
  assert (Hdata9 : _data f9 = _data f)
    by (subst f9; cbn [_data set_chip_state set_operation]; congruence).
  assert (Hwe9 : _write_enabled f9 = true)
    by (subst f9; cbn [_write_enabled set_chip_state set_operation]; congruence).
  subst op0. cbn [with_address write_operation.set_base write_operation._write_buffer
                  write_operation._current_byte write_operation._bit_index] in Hopa.
  destruct (clock_in_data_byte g data fa
              (operation_with_address.mk (Z.lor (g mod 2 ^ 32) (address mod 4096)) 0)
              (repeat 0 256) 0 lasta Hstatea Hopa eq_refl
              ltac:(rewrite repeat_length; lia)
              ltac:(cbn [operation_with_address._address Z.of_nat];
                    rewrite Z.add_0_r, Hdataa, Hdata9; exact Herased)
              Hbacka Hlasta)
    as (fb & lastb & Hbyte & Hstateb & Hopb & _ & _ & Hweb & _ & Hdatab & _).
  assert (Hbuffer : assign (repeat 0 256) 0 (Z.lor (nth 0 (repeat 0 256) 0) (data mod 256))
                    = data mod 256 :: repeat 0 255) by reflexivity.
  rewrite Hbuffer in Hopb.
  assert (Hall : (toggle_chip_enable ;; clock_in_data g 8 2 ;; clock_in_data g 12 address ;;
                  clock_in_data g 8 data ;; toggle_chip_enable)%method f =
                 toggle_chip_enable fb).
  { unfold bind. rewrite Hstart, Hrun, Haddress, Hbyte. reflexivity. }
  rewrite Hall. clear Hall Hbyte Haddress Hrun Hstart.
  assert (Hdatab' : _data fb = _data f) by congruence.
  assert (Hweb' : _write_enabled fb = true) by congruence.
  rewrite <- Hdatab' in *. clear Hdatab Hdataa Hdata9 Hdata8 Hdata1 Hdatab'.
  destruct fb as [ce si so st we bi ir o memory log].
  cbn [_chip_state _operation _data _write_enabled] in *. subst st o.
  assert (Hsize : List.length (data mod 256 :: repeat 0 255) = 256%nat)
    by (cbn [List.length]; rewrite repeat_length; reflexivity).
  unfold toggle_chip_enable.
  cbn [_chip_state _operation push_back operation_toggle_chip_enable].
  unfold operation_with_address_toggle_chip_enable, write_operation_toggle_chip_enable_impl,
    copy.
  cbn [write_operation.base operation_with_address._bit_index Z.eqb negb
       write_operation._write_buffer _data push_back].
  rewrite Hsize. change (256 + 256)%nat with 512%nat.
  apply Nat.leb_le in Hlength. rewrite Hlength.
  cbn [fst snd set_write_enabled set_data set_operation set_instruction_register
       set_chip_state _data _write_enabled _chip_state _chip_enable _serial_input
       _serial_output _bit_index _instruction_register _operation _user_operations].
  split; [reflexivity | split; [reflexivity | split; reflexivity]].
Qed.

Lemma X16_page_write_command_witness :
  let f := fst ((scenario.A 0 ;; scenario.B 0 ;; scenario.A 0)%method (ctor 512)) in
  get_chip_state
    (fst ((toggle_chip_enable ;; clock_in_data 0 8 0x02 ;; clock_in_data 0 12 0x010 ;;
           clock_in_data 0 8 0xab ;; toggle_chip_enable)%method f))
  = chip_state.deselected.
Proof.
  refine (proj2 (proj2 (proj2 (X16_page_write_command 0 0x010 0xab
                                 (fst ((scenario.A 0 ;; scenario.B 0 ;;
                                        scenario.A 0)%method (ctor 512))) _ _ _ _ _))));
    vm_compute; reflexivity.
Defined.

(** X17: after the last byte of the 256-byte buffer of a page write has
    been clocked in, the next clock toggle throws the exception of the
    full buffer; the buffer, with the byte in it, and the memory array
    are kept. *)
Theorem X17_write_buffer_takes_256_bytes
    (g data : Z) (f : flash_sim.t) (base : operation_with_address.t) (buffer : list Z)
    (last : user_operation.t) :
  get_chip_state f = chip_state.operation ->
  _operation f = Some (write_operation (write_operation.mk base buffer 255 8)) ->
  operation_with_address._bit_index base = 0 ->
  List.length buffer = 256%nat ->
  nth_error (get_data f) (Z.to_nat (operation_with_address._address base + 255)) = Some 0xff ->
  back (get_user_operations f) = Some last ->
  last <> user_operation.toggle_serial_input ->
  snd ((clock_in_data g 8 data ;; toggle_clock g)%method f) =
    throws (runtime_error "Write buffer is full.") /\
  _operation (fst ((clock_in_data g 8 data ;; toggle_clock g)%method f)) =
    Some (write_operation
            (write_operation.mk base
               (assign buffer 255 (Z.lor (nth 255 buffer 0) (data mod 256))) 256 8)) /\
  get_data (fst ((clock_in_data g 8 data ;; toggle_clock g)%method f)) = get_data f.
Proof.
  unfold get_chip_state, get_data, get_user_operations.
  intros Hstate Hop Hbase Hbuffer Herased Hback Hlast.
  destruct (clock_in_data_byte g data f base buffer 255 last
              Hstate Hop Hbase ltac:(lia) Herased Hback Hlast)
    as (f' & last' & Hrun & Hstate' & Hop' & _ & _ & _ & _ & Hdata' & _).
  unfold bind. rewrite Hrun. rewrite <- Hdata'.
  destruct f' as [ce si so st we bi ir o memory log], base as [address index].
  cbn [_chip_state _operation _data operation_with_address._bit_index] in *.
  subst st o index.
  unfold toggle_clock, operation_toggle_clock, operation_with_address_toggle_clock,
    write_operation_toggle_clock_impl.
  cbn [_chip_state _operation push_back write_operation.base write_operation._write_buffer
       write_operation._current_byte operation_with_address._bit_index Z.eqb negb].
  rewrite assign_length, Hbuffer. cbn [Nat.eqb].
  change (256 =? 256)%nat with true. cbn. repeat split.
Qed.

Lemma X17_write_buffer_takes_256_bytes_witness :
  let f := flash_sim.mk pin_state.high pin_state.low pin_state.low chip_state.operation
             true 0 0x02
             (Some (write_operation
                      (write_operation.mk (operation_with_address.mk 0 0)
                         (repeat 0 256) 255 8)))
             (repeat 0xff 512) [user_operation.toggle_clock] in
  snd ((clock_in_data 0 8 0xab ;; toggle_clock 0)%method f) =
    throws (runtime_error "Write buffer is full.").
Proof.
  refine (proj1 (X17_write_buffer_takes_256_bytes 0 0xab
                   (flash_sim.mk pin_state.high pin_state.low pin_state.low
                      chip_state.operation true 0 0x02
                      (Some (write_operation
                               (write_operation.mk (operation_with_address.mk 0 0)
                                  (repeat 0 256) 255 8)))
                      (repeat 0xff 512) [user_operation.toggle_clock])
                   (operation_with_address.mk 0 0) (repeat 0 256)
                   user_operation.toggle_clock _ _ _ _ _ _ _));
    try (vm_compute; reflexivity).
  discriminate.
Defined.

(** ** Clocking data out *)

Lemma clock_out_data_from_low (g : Z) (bit : nat) :
  forall (value : Z) (f : flash_sim.t),
    _serial_output f = pin_state.low ->
    (forall v : Z, snd (flash.clock_out_data_from (chip := is_flash g) bit value f) = returns v ->
                   v = value) /\
    _data (fst (flash.clock_out_data_from (chip := is_flash g) bit value f)) = _data f /\
    _write_enabled (fst (flash.clock_out_data_from (chip := is_flash g) bit value f)) =
      _write_enabled f.
Proof.
  induction bit as [|bit IH]; intros value f Hlow; cbn [flash.clock_out_data_from].
  - unfold ret; cbn. repeat split. congruence.
  - cbn [flash.get_serial_output is_flash]. unfold get_serial_output.
    rewrite Hlow. cbn [pin_state.eqb].
    unfold bind at 1 2 3. cbn [flash.toggle_clock is_flash].
    destruct (call_effect g user_operation.toggle_clock f)
      as (si & st & we & bi & ir & o & data & suffix & Hfst & _ & _ & _ & Hother & _).
    destruct (Hother ltac:(discriminate)) as [-> ->].
    change (perform_user_operation g user_operation.toggle_clock f)
      with (toggle_clock g f) in Hfst.
    destruct (toggle_clock g f) as [f1 r]. cbn [fst] in Hfst. subst f1.
    destruct r as [[] | e | why]; cbn [fst snd].
    + match goal with
      | |- context [flash.clock_out_data_from bit value ?f1] =>
          destruct (IH value f1) as (Hvalue & Hdata & Hwe); [cbn; exact Hlow |]
      end.
      cbn [_data _write_enabled] in Hdata, Hwe. repeat split; assumption.
    + repeat split. discriminate.
    + repeat split. discriminate.
Qed.

(** X18: on a chip whose serial-output pin is low, as it is on every
    chip a caller can get, [clock_out_data] returns 0 whenever it
    returns, for every number of bits and whatever the memory array
    holds; it changes neither the memory array nor the write-enable
    flag. *)
Theorem X18_clock_out_data_returns_zero (g : Z) (num_bits : nat) (f : flash_sim.t) :
  get_serial_output f = pin_state.low ->
  (forall value : Z, snd (clock_out_data g num_bits f) = returns value -> value = 0) /\
  get_data (fst (clock_out_data g num_bits f)) = get_data f /\
  _write_enabled (fst (clock_out_data g num_bits f)) = _write_enabled f.
Proof.
  intros Hlow. apply (clock_out_data_from_low g num_bits 0 f Hlow).
Qed.

Lemma X18_clock_out_data_returns_zero_witness :
  let f := fst ((scenario.A 0 ;; scenario.B 0 ;; toggle_chip_enable ;;
                 clock_in_data 0 8 0x03 ;; clock_in_data 0 12 0)%method (ctor 16)) in
  get_data (fst (clock_out_data 0 8 f)) = get_data f.
Proof.
  refine (proj1 (proj2 (X18_clock_out_data_returns_zero 0 8
                          (fst ((scenario.A 0 ;; scenario.B 0 ;; toggle_chip_enable ;;
                                 clock_in_data 0 8 0x03 ;;
                                 clock_in_data 0 12 0)%method (ctor 16))) _)));
    vm_compute; reflexivity.
Defined.

(** ** More on the log and on addresses *)

(** X19: after a series of user operations on a new chip in which every
    call returned, the operation log is exactly that series without its
    [wait_for_write_complete] operations, in the order of the calls. *)
Theorem X19_log_of_a_run_is_the_run_without_waits
    (g : Z) (n : nat) (ops : list user_operation.t) (f : flash_sim.t) :
  perform_user_operations g ops (ctor n) = (f, returns tt) ->
  get_user_operations f = filter logged ops.
Proof.
  intros Hrun.
  destruct (perform_user_operations_log g ops (ctor n) f Hrun) as [Hlog _].
  exact Hlog.
Qed.

Lemma X19_log_of_a_run_is_the_run_without_waits_witness :
  get_user_operations (fst (perform_user_operations 0 C7_series (ctor 16))) =
    filter logged C7_series.
Proof.
  apply (X19_log_of_a_run_is_the_run_without_waits 0 16 C7_series
           (fst (perform_user_operations 0 C7_series (ctor 16)))).
  vm_compute. reflexivity.
Defined.

(** X20: while a read or a page write is still taking its address
    (address bit index not 0), a chip-enable toggle throws; it has been
    logged, and the chip stays in the operation state with the operation
    as it was, so the address can still be completed. *)
Theorem X20_chip_enable_during_the_address_throws
    (f : flash_sim.t) (op : operation) (b : operation_with_address.t) :
  get_chip_state f = chip_state.operation ->
  has_address op ->
  _operation f = Some (with_address op b) ->
  operation_with_address._bit_index b <> 0 ->
  toggle_chip_enable f =
    (push_back user_operation.toggle_chip_enable f,
     throws (runtime_error "Cannot toggle chip enable while command is reading address.")).
Proof.
  unfold get_chip_state. intros Hstate Haddress Hop Hindex.
  apply Z.eqb_neq in Hindex.
  destruct f as [ce si so st we bi ir o data log].
  cbn [_chip_state _operation] in Hstate, Hop. subst st o.
  unfold toggle_chip_enable.
  cbn [_chip_state _operation push_back operation_toggle_chip_enable].
  unfold operation_with_address_toggle_chip_enable.
  destruct op as [this | this | | ]; try contradiction;
    cbn [with_address read_operation.set_base write_operation.set_base
         read_operation.base write_operation.base];
    rewrite Hindex; reflexivity.
Qed.

Lemma X20_chip_enable_during_the_address_throws_witness :
  let f := fst ((toggle_chip_enable ;; clock_in_data 0 8 0x03)%method (ctor 16)) in
  toggle_chip_enable f =
    (push_back user_operation.toggle_chip_enable f,
     throws (runtime_error "Cannot toggle chip enable while command is reading address.")).
Proof.
  refine (X20_chip_enable_during_the_address_throws
            (fst ((toggle_chip_enable ;; clock_in_data 0 8 0x03)%method (ctor 16)))
            (read_operation (read_operation.mk (operation_with_address.mk 0 12)))
            (operation_with_address.mk 0 12) _ I _ _);
    try (vm_compute; reflexivity).
  discriminate.
Defined.

Lemma read_idle_sink_clock
    (g : Z) (f0 : flash_sim.t) (this : read_operation.t) (acc : Z) (k : nat)
    (f : flash_sim.t) :
  read_idle_sink f0 this acc (S k) f ->
  exists f' : flash_sim.t,
    toggle_clock g f = (f', returns tt) /\
    read_idle_sink f0 this (2 * acc + serial_input_bit f) k f' /\
    _serial_input f' = _serial_input f /\
    back (_user_operations f') = Some user_operation.toggle_clock.
Proof.
  unfold read_idle_sink.
  intros (Hstate & Hindex & Hop & Hce & Hso & Hwe & Hir & Hdata).
  exists (push_back user_operation.toggle_clock f). split.
  - destruct f as [ce si so st we bi ir o data log], this as [[address index]].
    cbn [_chip_state _operation read_operation.base
         operation_with_address._bit_index] in Hstate, Hop, Hindex.
    subst st o index. reflexivity.
  - cbn [push_back _chip_state _operation _chip_enable _serial_output _write_enabled
         _instruction_register _data _serial_input _user_operations].
    repeat split; try assumption. apply back_push_back.
Qed.

(** X21: the opcode of a read followed by [clock_in_data<24>] of an
    address, as a caller with 24-bit addresses does it, on any deselected
    chip with a zero instruction register: the calls return, but the
    operation has taken the 12 high bits only; its address is the value
    the uninitialised member held, ORed with bits 23 to 12 of the address
    clocked in, and the 12 low bits are lost. *)
Theorem X21_read_takes_the_high_half_of_a_24_bit_address
    (g address : Z) (f : flash_sim.t) :
  get_chip_state f = chip_state.deselected ->
  _instruction_register f = 0 ->
  snd ((toggle_chip_enable ;; clock_in_data g 8 0x03 ;;
        clock_in_data g 24 address)%method f) = returns tt /\
  _operation (fst ((toggle_chip_enable ;; clock_in_data g 8 0x03 ;;
                    clock_in_data g 24 address)%method f)) =
    Some (read_operation
            (read_operation.mk
               (operation_with_address.mk
                  (Z.lor (g mod 2 ^ 32) (Z.shiftr address 12 mod 4096)) 0))) /\
  get_data (fst ((toggle_chip_enable ;; clock_in_data g 8 0x03 ;;
                  clock_in_data g 24 address)%method f)) = get_data f.
Proof.
  unfold get_chip_state, get_data. intros Hstate Hzero.
  destruct (command_starts f Hstate)
    as (f1 & Hstart & Hstate1 & Hindex1 & Hir1 & _ & _ & Hwe1 & _ & Hdata1 & Hback1).
  destruct (clock_in_data_opcode g 0x03 f1 user_operation.toggle_chip_enable
              Hstate1 Hindex1 Hback1 ltac:(discriminate))
    as (f8 & Hstate8 & Hindex8 & Hir8 & _ & _ & Hwe8 & _ & Hdata8 & Hback8 & Hrun).
  rewrite Hir1, Hzero in Hir8. change (Z.lor 0 (3 mod 256)) with 3 in Hir8.
  rewrite Hir8 in Hrun.
  change (_operation_map g 3) with (Some (read_operation_ctor g)) in Hrun.
  unfold read_operation_ctor, operation_with_address_ctor in Hrun.
  set (op0 := read_operation
                (read_operation.mk (operation_with_address.mk (g mod 2 ^ 32) 12))) in *.
  set (f9 := set_chip_state chip_state.operation (set_operation (Some op0) f8)) in *.
  assert (Hsink9 : address_sink f9 op0 (g mod 2 ^ 32) 0 12 f9).
  { unfold address_sink. rewrite Z.mul_0_l, Z.lor_0_r.
    repeat split; try reflexivity; lia. }
  destruct (clock_in_data_shifts g (address_sink f9 op0 (g mod 2 ^ 32))
              ltac:(unfold address_sink; intros ? ? ? (-> & _); discriminate)
              ltac:(unfold address_sink; intros; assumption)
              ltac:(unfold address_sink; intros; assumption)
              (address_sink_clock g f9 op0 (g mod 2 ^ 32)) address 12 12 0 f9
              user_operation.toggle_clock Hsink9 Hback8 ltac:(discriminate))
    as (fa & lasta & Hhigh & Hsinka & Hbacka & Hlasta & _).
  change (12 + 12)%nat with 24%nat in Hhigh.
  unfold address_sink in Hsinka.
  destruct Hsinka as (Hstatea & _ & _ & _ & Hopa & _ & _ & _ & _ & Hdataa).
  rewrite Z.mul_0_l, Z.add_0_l in Hopa.
  change (2 ^ Z.of_nat 0) with 1 in Hopa. rewrite Z.mul_1_r in Hopa.
  change (Z.of_nat 12) with 12 in Hopa. change (2 ^ 12) with 4096 in Hopa.
  change (Z.of_nat 0) with 0 in Hopa.
  subst op0. cbn [with_address read_operation.set_base] in Hopa.
  set (this := read_operation.mk
                 (operation_with_address.mk
                    (Z.lor (g mod 2 ^ 32) (Z.shiftr address 12 mod 4096)) 0)) in *.
  assert (Hsinka : read_idle_sink fa this 0 12 fa).
  { unfold read_idle_sink. repeat split; assumption. }
  destruct (clock_in_data_shifts g (read_idle_sink fa this)
              ltac:(unfold read_idle_sink; intros ? ? ? (-> & _); discriminate)
              ltac:(unfold read_idle_sink; intros; assumption)
              ltac:(unfold read_idle_sink; intros; assumption)
              (read_idle_sink_clock g fa this) address 0 12 0 fa lasta
              Hsinka Hbacka Hlasta)
    as (fb & lastb & Hlow & Hsinkb & _).
  change (12 + 0)%nat with 12%nat in Hlow.
  unfold read_idle_sink in Hsinkb.
  destruct Hsinkb as (_ & _ & Hopb & _ & _ & _ & _ & Hdatab).
  assert (Hall : (toggle_chip_enable ;; clock_in_data g 8 3 ;;
                  clock_in_data g 24 address)%method f = (fb, returns tt)).
  { unfold bind. rewrite Hstart, Hrun, Hhigh. exact Hlow. }
  rewrite Hall. cbn [fst snd].
  repeat split; try assumption.
  rewrite Hdatab, Hdataa. subst f9. cbn [_data set_chip_state set_operation]. congruence.
Qed.

Lemma X21_read_takes_the_high_half_of_a_24_bit_address_witness :
  snd ((toggle_chip_enable ;; clock_in_data 0 8 0x03 ;;
        clock_in_data 0 24 0x000010)%method (ctor 16)) = returns tt.
Proof.
  refine (proj1 (X21_read_takes_the_high_half_of_a_24_bit_address 0 0x000010
                   (ctor 16) _ _));
    vm_compute; reflexivity.
Defined.
